(** * Swipe handler: gesture classification and momentum scrolling

    A shallow embedding of [swipe-handler.js] (class [SwipeHandler]): the
    touch handlers, the swipe classifier, the momentum scroller, the section
    snapper, the gradient feedback and the constructor/destructor.

    Numbers.  A JavaScript number is modelled as an exact rational, extended
    with the three special values a division can produce ([Infinity],
    [-Infinity], [NaN]).  Rounding and the sign of zero are not modelled.
    Touch coordinates, [Date.now()], scroll offsets and numeric configuration
    values are finite, so they are plain [Q]; only what flows out of the
    division in [_handleVerticalScroll] has type [num]. *)

From Stdlib Require Import QArith Qabs Qminmax Lqa Lia.
From Stdlib Require Import Bool PeanoNat List String.
Import ListNotations.

Local Open Scope Q_scope.

(** ** JavaScript numbers *)

Module Num.

Inductive num : Type :=
| Fin (q : Q)
| PInf
| NInf
| NaN.

(** [x > y], [x >= y] on finite numbers. *)
Definition gtb (x y : Q) : bool := negb (Qle_bool x y).
Definition geb (x y : Q) : bool := Qle_bool y x.
Definition ltb (x y : Q) : bool := negb (Qle_bool y x).

(** [x / y] on finite operands: a zero divisor gives an infinity of the
    sign of the dividend, and [0 / 0] is [NaN]. *)
Definition div (x y : Q) : num :=
  if Qeq_bool y 0 then
    match x ?= 0 with
    | Gt => PInf
    | Lt => NInf
    | Eq => NaN
    end
  else Fin (x / y).

Definition neg (a : num) : num :=
  match a with
  | Fin x => Fin (- x)
  | PInf => NInf
  | NInf => PInf
  | NaN => NaN
  end.

(** An infinity times a finite number takes the sign of the product;
    infinity times zero is [NaN]. *)
Definition scale_inf (x : Q) (pos : bool) : num :=
  match x ?= 0 with
  | Gt => if pos then PInf else NInf
  | Lt => if pos then NInf else PInf
  | Eq => NaN
  end.

Definition mul (a b : num) : num :=
  match a, b with
  | NaN, _ | _, NaN => NaN
  | Fin x, Fin y => Fin (x * y)
  | Fin x, PInf | PInf, Fin x => scale_inf x true
  | Fin x, NInf | NInf, Fin x => scale_inf x false
  | PInf, PInf | NInf, NInf => PInf
  | PInf, NInf | NInf, PInf => NInf
  end.

Definition add (a b : num) : num :=
  match a, b with
  | NaN, _ | _, NaN => NaN
  | Fin x, Fin y => Fin (x + y)
  | PInf, NInf | NInf, PInf => NaN
  | PInf, _ | _, PInf => PInf
  | NInf, _ | _, NInf => NInf
  end.

Definition sub (a b : num) : num := add a (neg b).

(** [a > b]; any comparison with [NaN] is false. *)
Definition gt (a b : num) : bool :=
  match a, b with
  | NaN, _ | _, NaN => false
  | Fin x, Fin y => gtb x y
  | PInf, PInf => false
  | PInf, _ => true
  | _, NInf => match a with NInf => false | _ => true end
  | _, _ => false
  end.

(** [Math.min] and [Math.max]: [NaN] if either argument is. *)
Definition min (a b : num) : num :=
  match a, b with
  | NaN, _ | _, NaN => NaN
  | NInf, _ | _, NInf => NInf
  | PInf, c | c, PInf => c
  | Fin x, Fin y => Fin (Qmin x y)
  end.

Definition max (a b : num) : num :=
  match a, b with
  | NaN, _ | _, NaN => NaN
  | PInf, _ | _, PInf => PInf
  | NInf, c | c, NInf => c
  | Fin x, Fin y => Fin (Qmax x y)
  end.

(** Numeric equality and order of two results (never holds for [NaN]). *)
Definition eq (a b : num) : Prop :=
  match a, b with
  | Fin x, Fin y => x == y
  | PInf, PInf | NInf, NInf => True
  | _, _ => False
  end.

Definition le (a b : num) : Prop :=
  match a, b with
  | NaN, _ | _, NaN => False
  | Fin x, Fin y => x <= y
  | NInf, _ | _, PInf => True
  | _, _ => False
  end.

End Num.

Import Num.

(** ** Configuration, touches and events *)

Inductive Direction : Type := up | down | left | right.

(** The second argument of the [onSwipe] callback. *)
Record SwipeInfo : Type := mkInfo {
  deltaX : Q;
  deltaY : Q;
  deltaTime : Q
}.

(** How a call ends: it returns, or it throws. *)
Inductive Completion : Type := Normal | Throw.

(** [this.config], after the defaults have been merged in.  [onSwipe] is
    [Some f] when the property holds a function; of the externally supplied
    function only the way it completes is modelled. *)
Record Config : Type := mkConfig {
  minSwipeDistance : Q;
  scrollSmoothness : string;
  snapToSections : bool;
  showVisualFeedback : bool;
  feedbackDuration : Q;
  verticalOnly : bool;
  horizontalOnly : bool;
  enableMomentum : bool;
  momentumMultiplier : Q;
  enableGradient : bool;
  onSwipe : option (Direction -> SwipeInfo -> Completion)
}.

Definition DEFAULT_CONFIG : Config := {|
  minSwipeDistance := 26;
  scrollSmoothness := "smooth";
  snapToSections := false;
  showVisualFeedback := true;
  feedbackDuration := 300;
  verticalOnly := true;
  horizontalOnly := false;
  enableMomentum := true;
  momentumMultiplier := 5 # 2;
  enableGradient := true;
  onSwipe := None
|}.

Record Touch : Type := mkTouch {
  clientX : Q;
  clientY : Q
}.

(** A touch event: its [touches] and [changedTouches] lists, either of which
    may be missing from a synthetic event. *)
Record TouchEvent : Type := mkEvent {
  touches : option (list Touch);
  changedTouches : option (list Touch)
}.

(** [list?.[0]] *)
Definition first_touch (l : option (list Touch)) : option Touch :=
  match l with
  | Some (t :: _) => Some t
  | _ => None
  end.

(** ** The swipe classifier *)

(** [_getSwipeDirection] *)
Definition getSwipeDirection (cfg : Config) (dX dY : Q) : Direction :=
  if verticalOnly cfg then
    if gtb dY 0 then down else up
  else if horizontalOnly cfg then
    if gtb dX 0 then right else left
  else
    let absDeltaX := Qabs dX in
    let absDeltaY := Qabs dY in
    if gtb absDeltaY absDeltaX then
      if gtb dY 0 then down else up
    else
      if gtb dX 0 then right else left.

(** The condition of the [if] in [_handleTouchEnd] ("Check if this is a
    valid swipe"). *)
Definition isValidSwipe (cfg : Config) (dX dY : Q) : bool :=
  let absDeltaX := Qabs dX in
  let absDeltaY := Qabs dY in
  let isVerticalSwipe := verticalOnly cfg && gtb absDeltaY absDeltaX in
  let isHorizontalSwipe := horizontalOnly cfg && gtb absDeltaX absDeltaY in
  let isSwipe := negb (verticalOnly cfg) && negb (horizontalOnly cfg) in
  (isVerticalSwipe || isHorizontalSwipe || isSwipe) &&
  (geb absDeltaY (minSwipeDistance cfg) || geb absDeltaX (minSwipeDistance cfg)).

(** ** The handler object and its surroundings *)

(** The mutable fields of a [SwipeHandler] instance.  [None] is [null] (or,
    for [gradientOverlayBottom], a property that was never assigned).
    Overlay elements are named by a number. *)
Record Handler : Type := mkHandler {
  config : Config;
  touchStartX : option Q;
  touchStartY : option Q;
  touchStartTime : option Q;
  lastScrollTop : Q;
  isScrolling : bool;
  gradientOverlay : option nat;
  gradientOverlayBottom : option nat
}.

(** What a handler reads from the host when it runs. *)
Record Env : Type := mkEnv {
  now : Q;                 (* Date.now() *)
  pageYOffset : Q;         (* window.pageYOffset *)
  scrollTop : Q;           (* document.documentElement.scrollTop *)
  innerHeight : Q;         (* window.innerHeight *)
  sectionTops : list Q     (* getBoundingClientRect().top of every element
                              matching the section selectors, in document
                              order *)
}.

Inductive EventKind : Type := touchstart | touchmove | touchend | touchcancel.

(** The body of a pending [setTimeout] callback. *)
Inductive TimerAction : Type :=
| HideTop                  (* if (this.gradientOverlay) ... opacity = '0' *)
| HideBottom               (* if (this.gradientOverlayBottom) ... opacity = '0' *)
| SnapTo (section : nat).  (* nearestSection.scrollIntoView(...) *)

(** What a handler writes to the host. *)
Record Dom : Type := mkDom {
  body : list nat;                          (* overlay elements under document.body *)
  nextNode : nat;                           (* name of the next created element *)
  shown : list nat;                         (* elements whose opacity is '1' *)
  listeners : list EventKind;               (* listeners added to this.element *)
  timers : list (TimerAction * Q);          (* pending timeouts, with their delay *)
  scrollCalls : list (num * string);        (* window.scrollTo({top, behavior}) *)
  intoViewCalls : list (nat * string);      (* section.scrollIntoView({behavior}) *)
  swipeCalls : list (Direction * SwipeInfo);(* invocations of config.onSwipe *)
  uncaught : nat                            (* exceptions that left a listener *)
}.

(** [ToNumber] of a field that is a number or [null]: [null] counts as 0. *)
Definition num_of (o : option Q) : Q :=
  match o with
  | Some q => q
  | None => 0
  end.

Definition is_null {A : Type} (o : option A) : bool :=
  match o with
  | Some _ => false
  | None => true
  end.

(** [window.pageYOffset || document.documentElement.scrollTop] *)
Definition currentScrollTop (env : Env) : Q :=
  if Qeq_bool (pageYOffset env) 0 then scrollTop env else pageYOffset env.

Definition Direction_eqb (a b : Direction) : bool :=
  match a, b with
  | up, up | down, down | left, left | right, right => true
  | _, _ => false
  end.

(** *** Field updates *)

Definition set_start (h : Handler) (x y t : option Q) (scr : bool) : Handler :=
  mkHandler (config h) x y t (lastScrollTop h) scr
            (gradientOverlay h) (gradientOverlayBottom h).

Definition set_lastScrollTop (h : Handler) (v : Q) : Handler :=
  mkHandler (config h) (touchStartX h) (touchStartY h) (touchStartTime h) v
            (isScrolling h) (gradientOverlay h) (gradientOverlayBottom h).

Definition set_isScrolling (h : Handler) (b : bool) : Handler :=
  mkHandler (config h) (touchStartX h) (touchStartY h) (touchStartTime h)
            (lastScrollTop h) b (gradientOverlay h) (gradientOverlayBottom h).

Definition set_overlays (h : Handler) (top bottom : option nat) : Handler :=
  mkHandler (config h) (touchStartX h) (touchStartY h) (touchStartTime h)
            (lastScrollTop h) (isScrolling h) top bottom.

Definition set_body (d : Dom) (b : list nat) (next : nat) : Dom :=
  mkDom b next (shown d) (listeners d) (timers d) (scrollCalls d)
        (intoViewCalls d) (swipeCalls d) (uncaught d).

Definition set_shown (d : Dom) (s : list nat) : Dom :=
  mkDom (body d) (nextNode d) s (listeners d) (timers d) (scrollCalls d)
        (intoViewCalls d) (swipeCalls d) (uncaught d).

Definition set_listeners (d : Dom) (l : list EventKind) : Dom :=
  mkDom (body d) (nextNode d) (shown d) l (timers d) (scrollCalls d)
        (intoViewCalls d) (swipeCalls d) (uncaught d).

Definition set_timers (d : Dom) (t : list (TimerAction * Q)) : Dom :=
  mkDom (body d) (nextNode d) (shown d) (listeners d) t (scrollCalls d)
        (intoViewCalls d) (swipeCalls d) (uncaught d).

Definition set_scrollCalls (d : Dom) (c : list (num * string)) : Dom :=
  mkDom (body d) (nextNode d) (shown d) (listeners d) (timers d) c
        (intoViewCalls d) (swipeCalls d) (uncaught d).

Definition set_intoViewCalls (d : Dom) (c : list (nat * string)) : Dom :=
  mkDom (body d) (nextNode d) (shown d) (listeners d) (timers d)
        (scrollCalls d) c (swipeCalls d) (uncaught d).

Definition set_swipeCalls (d : Dom) (c : list (Direction * SwipeInfo)) : Dom :=
  mkDom (body d) (nextNode d) (shown d) (listeners d) (timers d)
        (scrollCalls d) (intoViewCalls d) c (uncaught d).

Definition set_uncaught (d : Dom) (n : nat) : Dom :=
  mkDom (body d) (nextNode d) (shown d) (listeners d) (timers d)
        (scrollCalls d) (intoViewCalls d) (swipeCalls d) n.

(** Host operations. *)
Definition setTimeout (d : Dom) (a : TimerAction) (delay : Q) : Dom :=
  set_timers d (timers d ++ [(a, delay)]).

Definition set_opacity (d : Dom) (n : nat) (visible : bool) : Dom :=
  let others := filter (fun m => negb (Nat.eqb m n)) (shown d) in
  set_shown d (if visible then n :: others else others).

Definition remove_node (d : Dom) (n : nat) : Dom :=
  set_body d (filter (fun m => negb (Nat.eqb m n)) (body d)) (nextNode d).

Definition scrollTo (d : Dom) (top : num) (behavior : string) : Dom :=
  set_scrollCalls d (scrollCalls d ++ [(top, behavior)]).

(** ** Feedback, momentum scrolling and section snapping *)

(** [_showGradient] *)
Definition showGradient (h : Handler) (d : Dom) (direction : Direction) : Dom :=
  if negb (enableGradient (config h)) then d
  else
    match Direction_eqb direction up, gradientOverlay h with
    | true, Some n =>
        setTimeout (set_opacity d n true) HideTop (feedbackDuration (config h))
    | _, _ =>
        match Direction_eqb direction down, gradientOverlayBottom h with
        | true, Some n =>
            setTimeout (set_opacity d n true) HideBottom
                       (feedbackDuration (config h))
        | _, _ => d
        end
    end.

(** The [forEach] of [_snapToNearestSection]: [best] is [nearestSection] with
    [minDistance] ([None] while [minDistance] is still [Infinity]); [i] is
    the index of the section looked at. *)
Fixpoint nearest_from (cur viewportHeight : Q) (tops : list Q) (i : nat)
         (best : option (nat * Q)) : option (nat * Q) :=
  match tops with
  | [] => best
  | top :: rest =>
      let sectionTop := top + cur in
      let distance := Qabs (sectionTop - cur) in
      let below_min :=
        match best with
        | Some (_, minDistance) => ltb distance minDistance
        | None => true
        end in
      nearest_from cur viewportHeight rest (S i)
        (if below_min && ltb distance viewportHeight
         then Some (i, distance) else best)
  end.

(** [_snapToNearestSection] *)
Definition snapToNearestSection (h : Handler) (env : Env) (d : Dom) : Dom :=
  match sectionTops env with
  | [] => d
  | tops =>
      match nearest_from (currentScrollTop env) (innerHeight env) tops 0 None with
      | Some (i, _) => setTimeout d (SnapTo i) 100
      | None => d
      end
  end.

(** The first half of [_handleVerticalScroll]: the value of [scrollAmount]
    after the momentum step. *)
Definition scrollAmount (cfg : Config) (dY dT : Q) : num :=
  let velocity := Num.div (Qabs dY) dT in
  let amount := Fin (Qabs dY) in
  if enableMomentum cfg && Num.gt velocity (Fin (1 # 2)) then
    Num.mul amount
            (Num.mul (Fin (momentumMultiplier cfg)) (Num.min velocity (Fin 2)))
  else amount.

Definition targetScrollTop (cfg : Config) (env : Env) (dY dT : Q)
           (direction : Direction) : num :=
  if Direction_eqb direction up
  then Num.add (Fin (currentScrollTop env)) (scrollAmount cfg dY dT)
  else Num.sub (Fin (currentScrollTop env)) (scrollAmount cfg dY dT).

(** [_handleVerticalScroll] *)
Definition handleVerticalScroll (h : Handler) (env : Env) (d : Dom)
           (dY dT : Q) (direction : Direction) : Dom :=
  let target := targetScrollTop (config h) env dY dT direction in
  let d1 := showGradient h d direction in
  let d2 := scrollTo d1 (Num.max (Fin 0) target) (scrollSmoothness (config h)) in
  if snapToSections (config h) then snapToNearestSection h env d2 else d2.

(** ** The touch handlers *)

(** [_resetTouch] *)
Definition resetTouch (h : Handler) : Handler :=
  set_start h None None None false.

(** [_handleTouchStart] *)
Definition handleTouchStart (h : Handler) (env : Env) (e : TouchEvent) : Handler :=
  match first_touch (touches e) with
  | None => h
  | Some touch =>
      set_start
        (set_lastScrollTop h (currentScrollTop env))
        (Some (clientX touch)) (Some (clientY touch)) (Some (now env)) false
  end.

(** [_handleTouchMove].  The closing [if (...) return;] of the source has
    nothing after it and is left out. *)
Definition handleTouchMove (h : Handler) (e : TouchEvent) : Handler :=
  if is_null (touchStartY h) then h
  else
    match first_touch (touches e) with
    | None => h
    | Some touch =>
        let dX := Qabs (clientX touch - num_of (touchStartX h)) in
        let dY := Qabs (clientY touch - num_of (touchStartY h)) in
        if negb (isScrolling h) then
          if verticalOnly (config h) && gtb dY dX then set_isScrolling h true
          else if horizontalOnly (config h) && gtb dX dY then set_isScrolling h true
          else if negb (verticalOnly (config h)) && negb (horizontalOnly (config h))
               then set_isScrolling h true
          else h
        else h
    end.

(** The call [this.config.onSwipe(swipeDirection, {deltaX, deltaY, deltaTime})],
    made when the property holds a function. *)
Definition call_onSwipe (cfg : Config) (d : Dom) (direction : Direction)
           (info : SwipeInfo) : Completion * Dom :=
  match onSwipe cfg with
  | None => (Normal, d)
  | Some f => (f direction info, set_swipeCalls d (swipeCalls d ++ [(direction, info)]))
  end.

(** [_handleTouchEnd].  There is no [try] in the source: when the callback
    throws, the rest of the method is skipped and the exception leaves it.
    [swipeDirection] is one of four non-empty strings, so the test
    [this.config.verticalOnly && swipeDirection] is [verticalOnly]. *)
Definition handleTouchEnd (h : Handler) (env : Env) (d : Dom) (e : TouchEvent)
  : Completion * Handler * Dom :=
  if is_null (touchStartY h) && is_null (touchStartX h) then (Normal, h, d)
  else
    match first_touch (changedTouches e) with
    | None => (Normal, h, d)
    | Some touch =>
        let dX := clientX touch - num_of (touchStartX h) in
        let dY := clientY touch - num_of (touchStartY h) in
        let dT := now env - num_of (touchStartTime h) in
        if isValidSwipe (config h) dX dY then
          let swipeDirection := getSwipeDirection (config h) dX dY in
          match call_onSwipe (config h) d swipeDirection (mkInfo dX dY dT) with
          | (Throw, d1) => (Throw, h, d1)
          | (Normal, d1) =>
              let d2 :=
                if verticalOnly (config h)
                then handleVerticalScroll h env d1 dY dT swipeDirection
                else d1 in
              (Normal, resetTouch h, d2)
          end
        else (Normal, resetTouch h, d)
    end.

(** [_handleTouchCancel] *)
Definition handleTouchCancel (h : Handler) : Handler := resetTouch h.

(** ** Construction and destruction *)

(** [_createGradientOverlay]: two new elements appended to [document.body]. *)
Definition createGradientOverlay (h : Handler) (d : Dom) : Handler * Dom :=
  let top := nextNode d in
  let d1 := set_body d (body d ++ [top]) (S top) in
  let bottom := nextNode d1 in
  let d2 := set_body d1 (body d1 ++ [bottom]) (S bottom) in
  (set_overlays h (Some top) (Some bottom), d2).

(** [_bindEvents] *)
Definition bindEvents (d : Dom) : Dom :=
  set_listeners d
    (listeners d ++ [touchstart; touchmove; touchend; touchcancel]).

(** [constructor] *)
Definition new (cfg : Config) (d : Dom) : Handler * Dom :=
  let h0 := mkHandler cfg None None None 0 false None None in
  let (h1, d1) :=
    if showVisualFeedback cfg && enableGradient cfg
    then createGradientOverlay h0 d else (h0, d) in
  (h1, bindEvents d1).

(** [destroy] *)
Definition destroy (h : Handler) (d : Dom) : Handler * Dom :=
  let (h1, d1) :=
    match gradientOverlay h with
    | Some n => (set_overlays h None (gradientOverlayBottom h), remove_node d n)
    | None => (h, d)
    end in
  match gradientOverlayBottom h1 with
  | Some n => (set_overlays h1 (gradientOverlay h1) None, remove_node d1 n)
  | None => (h1, d1)
  end.

(** ** Events *)

Inductive Event : Type :=
| TouchStart (e : TouchEvent)
| TouchMove (e : TouchEvent)
| TouchEnd (e : TouchEvent)
| TouchCancel (e : TouchEvent)
| Timeout (n : nat).       (* the n-th pending timeout comes due *)

(** The body of a timeout callback. *)
Definition fire (h : Handler) (d : Dom) (a : TimerAction) : Dom :=
  match a with
  | HideTop =>
      match gradientOverlay h with
      | Some n => set_opacity d n false
      | None => d
      end
  | HideBottom =>
      match gradientOverlayBottom h with
      | Some n => set_opacity d n false
      | None => d
      end
  | SnapTo i =>
      set_intoViewCalls d (intoViewCalls d ++ [(i, scrollSmoothness (config h))])
  end.

Fixpoint remove_nth {A : Type} (n : nat) (l : list A) : list A :=
  match l, n with
  | [], _ => []
  | _ :: rest, O => rest
  | x :: rest, S m => x :: remove_nth m rest
  end.

(** One host event handled by the listener bound for it.  An exception that
    leaves a listener is reported by the host and counted; the page goes on. *)
Definition step (h : Handler) (env : Env) (d : Dom) (ev : Event)
  : Completion * Handler * Dom :=
  match ev with
  | TouchStart e => (Normal, handleTouchStart h env e, d)
  | TouchMove e => (Normal, handleTouchMove h e, d)
  | TouchEnd e => handleTouchEnd h env d e
  | TouchCancel _ => (Normal, handleTouchCancel h, d)
  | Timeout n =>
      match nth_error (timers d) n with
      | Some (a, _) => (Normal, h, fire h (set_timers d (remove_nth n (timers d))) a)
      | None => (Normal, h, d)
      end
  end.

Definition report (c : Completion) (d : Dom) : Dom :=
  match c with
  | Normal => d
  | Throw => set_uncaught d (S (uncaught d))
  end.

(** A sequence of events, each with what the host shows when it arrives. *)
Fixpoint run (h : Handler) (d : Dom) (tr : list (Env * Event)) : Handler * Dom :=
  match tr with
  | [] => (h, d)
  | (env, ev) :: rest =>
      match step h env d ev with
      | (c, h1, d1) => run h1 (report c d1) rest
      end
  end.

Definition kind_of (ev : Event) : option EventKind :=
  match ev with
  | TouchStart _ => Some touchstart
  | TouchMove _ => Some touchmove
  | TouchEnd _ => Some touchend
  | TouchCancel _ => Some touchcancel
  | Timeout _ => None
  end.

Definition EventKind_eqb (a b : EventKind) : bool :=
  match a, b with
  | touchstart, touchstart | touchmove, touchmove
  | touchend, touchend | touchcancel, touchcancel => true
  | _, _ => false
  end.

Definition all_kinds : list EventKind :=
  [touchstart; touchmove; touchend; touchcancel].

(** Whether a listener for events of kind [k] is bound on the element. *)
Definition listening (d : Dom) (k : EventKind) : bool :=
  existsb (EventKind_eqb k) (listeners d).

(** A touch event reaches the handler only while a listener for its kind is
    bound on the element. *)
Definition deliver (h : Handler) (env : Env) (d : Dom) (ev : Event)
  : Completion * Handler * Dom :=
  match kind_of ev with
  | Some k =>
      if listening d k then step h env d ev else (Normal, h, d)
  | None => step h env d ev
  end.

Definition empty_page : Dom := mkDom [] 0 [] [] [] [] [] [] 0.

(** ** The axis mode of the specification *)

(** The specification has one three-valued [axisMode] where the code has the
    two flags [verticalOnly] and [horizontalOnly].  A configuration with both
    flags set is none of the three modes. *)
Inductive AxisMode : Type := vertical | horizontal | any.

Definition axisMode (cfg : Config) : option AxisMode :=
  match verticalOnly cfg, horizontalOnly cfg with
  | true, false => Some vertical
  | false, true => Some horizontal
  | false, false => Some any
  | true, true => None
  end.

Definition set_axis (cfg : Config) (m : AxisMode) : Config :=
  mkConfig (minSwipeDistance cfg) (scrollSmoothness cfg) (snapToSections cfg)
           (showVisualFeedback cfg) (feedbackDuration cfg)
           (match m with vertical => true | _ => false end)
           (match m with horizontal => true | _ => false end)
           (enableMomentum cfg) (momentumMultiplier cfg) (enableGradient cfg)
           (onSwipe cfg).

Definition set_onSwipe (cfg : Config)
           (f : option (Direction -> SwipeInfo -> Completion)) : Config :=
  mkConfig (minSwipeDistance cfg) (scrollSmoothness cfg) (snapToSections cfg)
           (showVisualFeedback cfg) (feedbackDuration cfg)
           (verticalOnly cfg) (horizontalOnly cfg)
           (enableMomentum cfg) (momentumMultiplier cfg) (enableGradient cfg) f.

Definition set_momentumMultiplier (cfg : Config) (m : Q) : Config :=
  mkConfig (minSwipeDistance cfg) (scrollSmoothness cfg) (snapToSections cfg)
           (showVisualFeedback cfg) (feedbackDuration cfg)
           (verticalOnly cfg) (horizontalOnly cfg)
           (enableMomentum cfg) m (enableGradient cfg) (onSwipe cfg).

(** The axis constraint and the governing-axis delta of the validity gate,
    as the specification words them. *)
Definition axis_constraint (m : AxisMode) (dX dY : Q) : Prop :=
  match m with
  | vertical => Qabs dX < Qabs dY
  | horizontal => Qabs dY < Qabs dX
  | any => True
  end.

Definition governing_delta (m : AxisMode) (dX dY : Q) : Q :=
  match m with
  | vertical => Qabs dY
  | horizontal => Qabs dX
  | any => Qmax (Qabs dX) (Qabs dY)
  end.

Definition spec_valid (cfg : Config) (m : AxisMode) (dX dY : Q) : Prop :=
  axis_constraint m dX dY /\ minSwipeDistance cfg <= governing_delta m dX dY.

(** The state right after an accepted start event. *)
Definition tracking (h : Handler) (x0 y0 t0 : Q) : Prop :=
  touchStartX h = Some x0 /\ touchStartY h = Some y0 /\ touchStartTime h = Some t0.

(** The idle state: no origin, no axis lock. *)
Definition idle (h : Handler) : Prop :=
  touchStartX h = None /\ touchStartY h = None /\ touchStartTime h = None /\
  isScrolling h = false.

(** ** States and fields *)

(** The origin fields: all set, all clear, or the same in two handlers. *)
Definition origin_set (h : Handler) : Prop :=
  touchStartX h <> None /\ touchStartY h <> None /\ touchStartTime h <> None.

Definition origin_clear (h : Handler) : Prop :=
  touchStartX h = None /\ touchStartY h = None /\ touchStartTime h = None.

Definition same_origin (h1 h2 : Handler) : Prop :=
  touchStartX h1 = touchStartX h2 /\ touchStartY h1 = touchStartY h2 /\
  touchStartTime h1 = touchStartTime h2.

(** [unlock] forgets the axis lock, [forget] forgets [lastScrollTop]. *)
Definition unlock (h : Handler) : Handler := set_isScrolling h false.
Definition forget (h : Handler) : Handler := set_lastScrollTop h 0.

(** A run of move events. *)
Definition moves (ms : list (Env * TouchEvent)) : list (Env * Event) :=
  map (fun m => (fst m, TouchMove (snd m))) ms.

(** ** Sample inputs *)

(** A handler on the default configuration that has accepted a start event
    at (100,500) at time 0, and one whose onSwipe callback throws. *)
Definition tracking_example : Handler :=
  mkHandler DEFAULT_CONFIG (Some 100) (Some 500) (Some 0) 200 false
            (Some 0%nat) (Some 1%nat).

Definition end_example : TouchEvent :=
  mkEvent (Some []) (Some [mkTouch 100 440]).

Definition env_example (t : Q) : Env := mkEnv t 200 200 800 [].

Definition throwing : Direction -> SwipeInfo -> Completion := fun _ _ => Throw.

Definition throwing_example : Handler :=
  mkHandler (set_onSwipe DEFAULT_CONFIG (Some throwing))
            (Some 100) (Some 500) (Some 0) 200 false (Some 0%nat) (Some 1%nat).

Definition start_example : Env * TouchEvent :=
  (env_example 0, mkEvent (Some [mkTouch 100 500]) (Some [mkTouch 100 500])).

Definition move_example : Env * TouchEvent :=
  (env_example 40, mkEvent (Some [mkTouch 101 470]) (Some [mkTouch 101 470])).

Definition cancel_example : Env * TouchEvent :=
  (env_example 80, mkEvent (Some []) (Some [mkTouch 101 470])).

(** ** Page-level entry points *)



(** The attributes of [document.body], in document order. *)
Definition Attributes : Type := list (string * string).

Fixpoint getAttribute (attrs : Attributes) (name : string) : option string :=
  match attrs with
  | [] => None
  | (k, v) :: rest => if String.eqb k name then Some v else getAttribute rest name
  end.

Definition hasAttribute (attrs : Attributes) (name : string) : bool :=
  negb (is_null (getAttribute attrs name)).

(** [getAttribute(name) === 'true'] *)
Definition attribute_is_true (attrs : Attributes) (name : string) : bool :=
  match getAttribute attrs name with
  | Some v => String.eqb v "true"
  | None => false
  end.

(** The partial configuration the auto-initialiser builds: only these two
    keys are ever set. *)
Record Overrides : Type := mkOverrides {
  ov_snapToSections : option bool;
  ov_enableGradient : option bool
}.

(** [{ ...DEFAULT_CONFIG, ...config }] for such a partial configuration. *)
Definition merge_defaults (o : Overrides) : Config :=
  mkConfig (minSwipeDistance DEFAULT_CONFIG) (scrollSmoothness DEFAULT_CONFIG)
           (match ov_snapToSections o with
            | Some b => b
            | None => snapToSections DEFAULT_CONFIG
            end)
           (showVisualFeedback DEFAULT_CONFIG) (feedbackDuration DEFAULT_CONFIG)
           (verticalOnly DEFAULT_CONFIG) (horizontalOnly DEFAULT_CONFIG)
           (enableMomentum DEFAULT_CONFIG) (momentumMultiplier DEFAULT_CONFIG)
           (match ov_enableGradient o with
            | Some b => b
            | None => enableGradient DEFAULT_CONFIG
            end)
           (onSwipe DEFAULT_CONFIG).

(** "Read config from data attributes" *)
Definition read_overrides (attrs : Attributes) : Overrides :=
  mkOverrides
    (if hasAttribute attrs "data-swipe-snap"
     then Some (attribute_is_true attrs "data-swipe-snap") else None)
    (if hasAttribute attrs "data-swipe-gradient"
     then Some (attribute_is_true attrs "data-swipe-gradient") else None).

(** The [DOMContentLoaded] listener of the handler script: the value given
    to [window.pageSwipeHandler], if any, and the page. *)
Definition autoInit (attrs : Attributes) (d : Dom) : option Handler * Dom :=
  if hasAttribute attrs "data-swipe-enabled" then
    let (h, d1) := new (merge_defaults (read_overrides attrs)) d in (Some h, d1)
  else (None, d).

(** ** The swipe rail *)

Module Rail.

Definition AUTO_HIDE_MS : Q := 4000.
Definition EDGE_TRIGGER_PX : Q := 72.

(** The variables of the rail script and the part of the page it works on.
    The script never removes the [#swipeRail] element, so a non-null [rail]
    is that element. *)
Record State : Type := mkState {
  docRail : option bool;    (* the #swipeRail element, if the document has
                               one, and whether it has the class
                               swipe-rail--collapsed *)
  created : nat;            (* elements created by ensureRail *)
  rail : bool;              (* the variable rail is not null *)
  hideTimer : option nat;   (* the variable hideTimer: null or a timer id *)
  pending : list nat;       (* ids of the timeouts still pending *)
  nextTimer : nat;          (* the id the next setTimeout returns *)
  frames : nat              (* requestAnimationFrame callbacks not yet run *)
}.

Definition set_doc (s : State) (doc : option bool) (n : nat) (r : bool) : State :=
  mkState doc n r (hideTimer s) (pending s) (nextTimer s) (frames s).

Definition set_timer (s : State) (t : option nat) (p : list nat) (next : nat)
  : State :=
  mkState (docRail s) (created s) (rail s) t p next (frames s).

Definition set_frames (s : State) (n : nat) : State :=
  mkState (docRail s) (created s) (rail s) (hideTimer s) (pending s)
          (nextTimer s) n.

(** [classList.add] / [classList.remove] of the collapsed class. *)
Definition set_collapsed (s : State) (b : bool) : State :=
  set_doc s (match docRail s with Some _ => Some b | None => None end)
          (created s) (rail s).

(** [ensureRail]: a created element starts with the collapsed class. *)
Definition ensureRail (s : State) : State :=
  match docRail s with
  | Some c => set_doc s (Some c) (created s) true
  | None => set_doc s (Some true) (S (created s)) true
  end.

(** [hideRail] *)
Definition hideRail (s : State) : State :=
  if negb (rail s) then s else set_collapsed s true.

(** A timer id is a number; [if (hideTimer)] holds for a non-zero one. *)
Definition truthy (t : option nat) : bool :=
  match t with
  | Some (S _) => true
  | _ => false
  end.

Definition clearTimeout (p : list nat) (t : option nat) : list nat :=
  match t with
  | Some id => filter (fun i => negb (Nat.eqb i id)) p
  | None => p
  end.

(** [showRail({ autoHide })] *)
Definition showRail (s : State) (autoHide : bool) : State :=
  if negb (rail s) then s
  else
    let s1 := set_collapsed s false in
    let s2 :=
      if truthy (hideTimer s1)
      then set_timer s1 None (clearTimeout (pending s1) (hideTimer s1))
                     (nextTimer s1)
      else s1 in
    if autoHide
    then set_timer s2 (Some (nextTimer s2)) (pending s2 ++ [nextTimer s2])
                   (S (nextTimer s2))
    else s2.

Inductive Event : Type :=
| DOMContentLoaded
| Load
| AnimationFrame                                    (* a frame callback runs *)
| PointerDown (onRail : bool) (innerWidth clientX : Q)
| TimerDue (id : nat).                              (* a timeout comes due *)

(** The listeners of the script, and the two host callbacks. *)
Definition handle (s : State) (ev : Event) : State :=
  match ev with
  | DOMContentLoaded => hideRail (ensureRail s)
  | Load => let s1 := ensureRail s in set_frames s1 (S (frames s1))
  | AnimationFrame =>
      match frames s with
      | O => s
      | S n => showRail (set_frames s n) true
      end
  | PointerDown onRail innerWidth clientX =>
      if negb (rail s) then s
      else if onRail then showRail s true
      else
        let distanceFromEdge := innerWidth - clientX in
        if geb EDGE_TRIGGER_PX distanceFromEdge then showRail s true else s
  | TimerDue id =>
      if existsb (Nat.eqb id) (pending s)
      then hideRail (set_timer s (hideTimer s)
                               (filter (fun i => negb (Nat.eqb i id)) (pending s))
                               (nextTimer s))
      else s
  end.

Definition handle_all (s : State) (evs : list Event) : State :=
  fold_left handle evs s.

(** The script has just been evaluated, on a document that has a
    [#swipeRail] element ([doc] says whether collapsed) or none. *)
Definition initial (doc : option bool) : State :=
  mkState doc 0 false None [] 1 0.

(** The [touchend] listener on the document (double-tap guard).  [target]
    is [None] for an event without target and otherwise says whether
    [closest(interactiveSelector)] finds an element.  The result says
    whether [preventDefault] was called, and gives the new [lastTouchEnd]. *)
Definition touchEndGuard (lastTouchEnd now : Q) (target : option bool)
  : bool * Q :=
  match target with
  | Some true => (false, now)
  | _ => (geb 300 (now - lastTouchEnd), now)
  end.

(** A sequence of [touchend] events, each with its time and target: which of
    them had their default action prevented. *)
Fixpoint guard_all (lastTouchEnd : Q) (evs : list (Q * option bool))
  : list bool :=
  match evs with
  | [] => []
  | (now, target) :: rest =>
      let (prevented, last) := touchEndGuard lastTouchEnd now target in
      prevented :: guard_all last rest
  end.

End Rail.

(** ** Measures used in the statements *)


Definition is_touchend (item : Env * Event) : bool :=
  match snd item with
  | TouchEnd _ => true
  | _ => false
  end.

(** An event that cannot begin an interaction or run a timer callback. *)
Definition passive_event (item : Env * Event) : bool :=
  match snd item with
  | TouchStart e => is_null (first_touch (touches e))
  | Timeout _ => false
  | _ => true
  end.

(** Every overlay on the page is older than the next element to be created. *)
Definition well_formed (d : Dom) : Prop :=
  forall n, In n (body d) -> (n < nextNode d)%nat.

(** What the rail script keeps true of its timer: at most one timeout is
    pending and [hideTimer] names it; ids are positive and older than the
    next one; a timeout is pending only once the rail is known. *)
Definition rail_timer_ok (s : Rail.State) : Prop :=
  (Rail.pending s = [] \/
   exists id, Rail.pending s = [id] /\ Rail.hideTimer s = Some id) /\
  (forall id, Rail.hideTimer s = Some id -> (1 <= id)%nat) /\
  (forall id, In id (Rail.pending s) -> (id < Rail.nextTimer s)%nat) /\
  (1 <= Rail.nextTimer s)%nat /\
  (Rail.pending s <> [] -> Rail.rail s = true) /\
  (Rail.rail s = true -> Rail.docRail s <> None).

(** The rail is expanded: the element is there without the collapsed class. *)
Definition rail_expanded (s : Rail.State) : Prop :=
  Rail.docRail s = Some false.

(** How the configuration built from the body attributes differs from the
    default one: in these two fields at most. *)
Definition default_but (snap gradient : bool) : Config :=
  mkConfig 26 "smooth" snap true 300 true false true (5 # 2) gradient None.

(** * Properties *)

(** ** Comparisons *)

Lemma gtb_true_iff (x y : Q) : gtb x y = true <-> y < x.
Proof.
  unfold gtb. rewrite negb_true_iff, <- not_true_iff_false, Qle_bool_iff.
  split; [apply Qnot_le_lt | apply Qlt_not_le].
Qed.

Lemma gtb_false_iff (x y : Q) : gtb x y = false <-> x <= y.
Proof. unfold gtb. rewrite negb_false_iff. apply Qle_bool_iff. Qed.

Lemma geb_true_iff (x y : Q) : geb x y = true <-> y <= x.
Proof. unfold geb. apply Qle_bool_iff. Qed.

Lemma geb_false_iff (x y : Q) : geb x y = false <-> x < y.
Proof.
  unfold geb. rewrite <- not_true_iff_false, Qle_bool_iff.
  split; [apply Qnot_le_lt | apply Qlt_not_le].
Qed.


(** ** Small cases *)

(** In vertical mode a positive deltaY is a swipe down, a negative one a
    swipe up. *)
Example direction_sign :
  getSwipeDirection DEFAULT_CONFIG 0 50 = down /\
  getSwipeDirection DEFAULT_CONFIG 0 (-50) = up.
Proof. split; reflexivity. Qed.

(** A swipe down of amount 1000 from scroll position 10 asks for position 0. *)
Example clamp_to_zero :
  let env := mkEnv 50 10 10 800 [] in
  Num.eq (scrollAmount DEFAULT_CONFIG 200 50) (Fin 1000) /\
  Num.eq (targetScrollTop DEFAULT_CONFIG env 200 50 down) (Fin (-990)) /\
  Num.eq (Num.max (Fin 0) (targetScrollTop DEFAULT_CONFIG env 200 50 down))
         (Fin 0).
Proof. repeat split. Qed.

(** A still, zero-duration touch has no velocity and no momentum. *)
Example still_touch :
  Num.div (Qabs 0) 0 = NaN /\ scrollAmount DEFAULT_CONFIG 0 0 = Fin (Qabs 0).
Proof. split; reflexivity. Qed.

(** With both axis flags set, a horizontal movement passes the gate and is
    named by the vertical rule. *)
Example both_flags :
  let cfg := mkConfig 26 "smooth" false true 300 true true true (5 # 2) true None in
  axisMode cfg = None /\
  isValidSwipe cfg 100 0 = true /\
  getSwipeDirection cfg 100 0 = up.
Proof. repeat split. Qed.

(** ** The validity gate *)

Lemma gate_vertical (cfg : Config) (dX dY : Q) :
  verticalOnly cfg = true -> horizontalOnly cfg = false ->
  (isValidSwipe cfg dX dY = true <->
   Qabs dX < Qabs dY /\ minSwipeDistance cfg <= Qabs dY).
Proof.
  intros Hv Hh. unfold isValidSwipe. rewrite Hv, Hh. cbn [andb orb negb].
  rewrite ?orb_false_r, ?orb_false_l, andb_true_iff, orb_true_iff,
    gtb_true_iff, !geb_true_iff.
  split.
  - intros [Hlt [Hy | Hx]]; split; trivial.
    apply Qle_trans with (Qabs dX); trivial. now apply Qlt_le_weak.
  - intros [Hlt Hy]. auto.
Qed.

Lemma gate_horizontal (cfg : Config) (dX dY : Q) :
  verticalOnly cfg = false -> horizontalOnly cfg = true ->
  (isValidSwipe cfg dX dY = true <->
   Qabs dY < Qabs dX /\ minSwipeDistance cfg <= Qabs dX).
Proof.
  intros Hv Hh. unfold isValidSwipe. rewrite Hv, Hh. cbn [andb orb negb].
  rewrite ?orb_false_r, ?orb_false_l, andb_true_iff, orb_true_iff,
    gtb_true_iff, !geb_true_iff.
  split.
  - intros [Hlt [Hy | Hx]]; split; trivial.
    apply Qle_trans with (Qabs dY); trivial. now apply Qlt_le_weak.
  - intros [Hlt Hx]. auto.
Qed.

Lemma gate_any (cfg : Config) (dX dY : Q) :
  verticalOnly cfg = false -> horizontalOnly cfg = false ->
  (isValidSwipe cfg dX dY = true <->
   minSwipeDistance cfg <= Qmax (Qabs dX) (Qabs dY)).
Proof.
  intros Hv Hh. unfold isValidSwipe. rewrite Hv, Hh. cbn [andb orb negb].
  rewrite orb_true_iff, !geb_true_iff, Q.max_le_iff. tauto.
Qed.

Lemma gate_iff (cfg : Config) (m : AxisMode) (dX dY : Q) :
  axisMode cfg = Some m ->
  (isValidSwipe cfg dX dY = true <-> spec_valid cfg m dX dY).
Proof.
  unfold axisMode, spec_valid.
  destruct (verticalOnly cfg) eqn:Hv, (horizontalOnly cfg) eqn:Hh;
    intros Hm; inversion Hm; subst m; cbn.
  - now apply gate_vertical.
  - now apply gate_horizontal.
  - rewrite (gate_any cfg dX dY Hv Hh). tauto.
Qed.

Lemma showGradient_swipeCalls (h : Handler) (d : Dom) (dir : Direction) :
  swipeCalls (showGradient h d dir) = swipeCalls d.
Proof.
  unfold showGradient.
  destruct (negb (enableGradient (config h))); trivial.
  destruct (Direction_eqb dir up), (gradientOverlay h),
    (Direction_eqb dir down), (gradientOverlayBottom h); reflexivity.
Qed.

Lemma snapToNearestSection_swipeCalls (h : Handler) (env : Env) (d : Dom) :
  swipeCalls (snapToNearestSection h env d) = swipeCalls d.
Proof.
  unfold snapToNearestSection.
  destruct (sectionTops env); trivial.
  destruct (nearest_from _ _ _ _ _) as [[i q0] | ]; reflexivity.
Qed.

Lemma handleVerticalScroll_swipeCalls (h : Handler) (env : Env) (d : Dom)
      (dY dT : Q) (dir : Direction) :
  swipeCalls (handleVerticalScroll h env d dY dT dir) = swipeCalls d.
Proof.
  unfold handleVerticalScroll.
  destruct (snapToSections (config h)).
  - rewrite snapToNearestSection_swipeCalls. cbn. apply showGradient_swipeCalls.
  - cbn. apply showGradient_swipeCalls.
Qed.

(** What [_handleTouchEnd] does once an origin is set and the event carries a
    touch: the gate decides between the swipe branch and a plain reset. *)
Lemma handleTouchEnd_tracking (h : Handler) (env : Env) (d : Dom)
      (e : TouchEvent) (touch : Touch) (x0 y0 t0 : Q) :
  tracking h x0 y0 t0 ->
  first_touch (changedTouches e) = Some touch ->
  handleTouchEnd h env d e =
    let dX := clientX touch - x0 in
    let dY := clientY touch - y0 in
    let dT := now env - t0 in
    if isValidSwipe (config h) dX dY then
      let direction := getSwipeDirection (config h) dX dY in
      match call_onSwipe (config h) d direction (mkInfo dX dY dT) with
      | (Throw, d1) => (Throw, h, d1)
      | (Normal, d1) =>
          (Normal, resetTouch h,
           if verticalOnly (config h)
           then handleVerticalScroll h env d1 dY dT direction else d1)
      end
    else (Normal, resetTouch h, d).
Proof.
  intros (Hx & Hy & Ht) He. unfold handleTouchEnd.
  rewrite Hx, Hy, Ht, He. reflexivity.
Qed.

(** C2.  In each of the three axis modes, an interaction that ends at
    (deltaX, deltaY) is classified as a swipe -- the gate of the touch-end
    handler passes, the callback is invoked with a direction and, in vertical
    mode, the momentum scroller runs -- if and only if the axis constraint
    holds and the governing-axis absolute delta is at least minSwipeDistance;
    otherwise the handler only resets.  In vertical mode |deltaX| > |deltaY|
    is never a swipe, |deltaY| = minSwipeDistance - 1 is not a swipe, and a
    vertical movement with |deltaY| = minSwipeDistance is one. *)
Theorem C2_validity_gate (h : Handler) (env : Env) (d : Dom) (e : TouchEvent)
        (touch : Touch) (x0 y0 t0 : Q) (m : AxisMode) :
  axisMode (config h) = Some m ->
  tracking h x0 y0 t0 ->
  first_touch (changedTouches e) = Some touch ->
  let cfg := config h in
  let dX := clientX touch - x0 in
  let dY := clientY touch - y0 in
  let dT := now env - t0 in
  let direction := getSwipeDirection cfg dX dY in
  (isValidSwipe cfg dX dY = true <-> spec_valid cfg m dX dY) /\
  (spec_valid cfg m dX dY ->
   (handleTouchEnd h env d e =
      match call_onSwipe cfg d direction (mkInfo dX dY dT) with
      | (Throw, d1) => (Throw, h, d1)
      | (Normal, d1) =>
          (Normal, resetTouch h,
           if verticalOnly cfg
           then handleVerticalScroll h env d1 dY dT direction else d1)
      end) /\
   (forall f, onSwipe cfg = Some f ->
      swipeCalls (snd (handleTouchEnd h env d e)) =
      swipeCalls d ++ [(direction, mkInfo dX dY dT)])) /\
  (~ spec_valid cfg m dX dY ->
   handleTouchEnd h env d e = (Normal, resetTouch h, d)) /\
  (m = vertical -> Qabs dY < Qabs dX -> isValidSwipe cfg dX dY = false) /\
  (m = vertical -> Qabs dY == minSwipeDistance cfg - 1 ->
   isValidSwipe cfg dX dY = false) /\
  (m = vertical -> Qabs dX < Qabs dY -> Qabs dY == minSwipeDistance cfg ->
   isValidSwipe cfg dX dY = true).
Proof.
  intros Hm Htr He cfg dX dY dT direction.
  pose proof (gate_iff cfg m dX dY Hm) as Hgate.
  pose proof (handleTouchEnd_tracking h env d e touch x0 y0 t0 Htr He) as Hend.
  cbv zeta in Hend. fold cfg dX dY dT in Hend. fold direction in Hend.
  split; [exact Hgate | ].
  split; [ | split; [ | repeat split ]].
  - intros Hvalid. apply Hgate in Hvalid. rewrite Hvalid in Hend.
    split; [exact Hend | ].
    intros f Hf. rewrite Hend. unfold call_onSwipe. rewrite Hf.
    destruct (f direction (mkInfo dX dY dT)); cbn [snd]; trivial.
    destruct (verticalOnly cfg); trivial.
    now rewrite handleVerticalScroll_swipeCalls.
  - intros Hinv.
    destruct (isValidSwipe cfg dX dY) eqn:Hv; [ | exact Hend].
    exfalso. apply Hinv, Hgate. reflexivity.
  - intros -> Hlt. apply not_true_is_false. intros Hv.
    apply Hgate in Hv. destruct Hv as [Hax _].
    change (Qabs dX < Qabs dY) in Hax. lra.
  - intros -> Heq. apply not_true_is_false. intros Hv.
    apply Hgate in Hv. destruct Hv as [_ Hmin].
    change (minSwipeDistance cfg <= Qabs dY) in Hmin. lra.
  - intros -> Hlt Heq. apply Hgate. split; [exact Hlt | ].
    change (minSwipeDistance cfg <= Qabs dY). lra.
Qed.

Lemma C2_validity_gate_witness :
  isValidSwipe DEFAULT_CONFIG (100 - 100) (440 - 500) = true <->
  spec_valid DEFAULT_CONFIG vertical (100 - 100) (440 - 500).
Proof.
  apply (C2_validity_gate tracking_example (env_example 100) empty_page
           end_example (mkTouch 100 440) 100 500 0 vertical).
  - reflexivity.
  - repeat split.
  - reflexivity.
Defined.

(** ** Direction in any-mode *)

(** C3, as the code has it.  In any-mode an exact tie of the absolute deltas
    is decided by the horizontal branch: the direction is right for a
    positive deltaX and left otherwise; deltaX = 40, deltaY = -40 is
    classified as right. *)
Theorem C3_tie_is_horizontal (cfg : Config) (dX dY : Q) :
  axisMode cfg = Some any ->
  Qabs dY == Qabs dX ->
  getSwipeDirection cfg dX dY = (if gtb dX 0 then right else left) /\
  getSwipeDirection cfg 40 (-40) = right.
Proof.
  unfold axisMode, getSwipeDirection.
  destruct (verticalOnly cfg), (horizontalOnly cfg); try discriminate.
  intros _ Htie. split; [ | reflexivity].
  replace (gtb (Qabs dY) (Qabs dX)) with false; trivial.
  symmetry. apply gtb_false_iff. rewrite Htie. apply Qle_refl.
Qed.

Lemma C3_tie_is_horizontal_witness :
  getSwipeDirection (set_axis DEFAULT_CONFIG any) 40 (-40) =
  (if gtb 40 0 then right else left) /\
  getSwipeDirection (set_axis DEFAULT_CONFIG any) 40 (-40) = right.
Proof.
  apply (C3_tie_is_horizontal (set_axis DEFAULT_CONFIG any) 40 (-40)).
  - reflexivity.
  - reflexivity.
Defined.

(** The tie deltaX = 40, deltaY = -40 in any-mode is not classified as up
    and is not decided by the vertical branch. *)
Lemma C3_tie_not_up :
  axisMode (set_axis DEFAULT_CONFIG any) = Some any /\
  Qabs (-40) == Qabs 40 /\
  getSwipeDirection (set_axis DEFAULT_CONFIG any) 40 (-40) <> up /\
  getSwipeDirection (set_axis DEFAULT_CONFIG any) 40 (-40) <> down.
Proof. repeat split; try reflexivity; discriminate. Qed.

(** ** Momentum *)

Lemma Qeq_bool_false (x y : Q) : ~ x == y -> Qeq_bool x y = false.
Proof.
  intros Hne. apply not_true_is_false. intros Heq. apply Hne.
  now apply Qeq_bool_iff.
Qed.

Lemma Qeq_bool_true (x y : Q) : x == y -> Qeq_bool x y = true.
Proof. apply Qeq_bool_iff. Qed.

(** The velocity of a zero-duration interaction that moved. *)
Lemma div_zero_duration (a dT : Q) : 0 < a -> dT == 0 -> div a dT = PInf.
Proof.
  intros Ha HdT. unfold div. rewrite (Qeq_bool_true _ _ HdT).
  apply Qgt_alt in Ha. now rewrite Ha.
Qed.

(** The velocity of a zero-duration interaction that did not move. *)
Lemma div_zero_zero (a dT : Q) : a == 0 -> dT == 0 -> div a dT = NaN.
Proof.
  intros Ha HdT. unfold div. rewrite (Qeq_bool_true _ _ HdT).
  apply Qeq_alt in Ha. now rewrite Ha.
Qed.

Lemma div_finite (a dT : Q) : ~ dT == 0 -> div a dT = Fin (a / dT).
Proof. intros HdT. unfold div. now rewrite (Qeq_bool_false _ _ HdT). Qed.

Lemma Qabs_zero_or_pos (x : Q) : Qabs x == 0 \/ 0 < Qabs x.
Proof.
  pose proof (Qabs_nonneg x) as Hx.
  destruct (Qlt_le_dec 0 (Qabs x)) as [Hlt | Hle]; [now right | left; lra].
Qed.

(** [scrollAmount] for a positive duration. *)
Lemma scrollAmount_positive_duration (cfg : Config) (dY dT : Q) :
  ~ dT == 0 ->
  scrollAmount cfg dY dT =
    if enableMomentum cfg && gtb (Qabs dY / dT) (1 # 2)
    then Fin (Qabs dY * (momentumMultiplier cfg * Qmin (Qabs dY / dT) 2))
    else Fin (Qabs dY).
Proof.
  intros HdT. unfold scrollAmount. rewrite (div_finite _ _ HdT). reflexivity.
Qed.

(** [scrollAmount] for a zero duration. *)
Lemma scrollAmount_zero_duration (cfg : Config) (dY dT : Q) :
  dT == 0 ->
  scrollAmount cfg dY dT =
    if enableMomentum cfg && negb (Qeq_bool (Qabs dY) 0)
    then Fin (Qabs dY * (momentumMultiplier cfg * 2))
    else Fin (Qabs dY).
Proof.
  intros HdT. unfold scrollAmount.
  destruct (Qabs_zero_or_pos dY) as [Hz | Hp].
  - rewrite (div_zero_zero _ _ Hz HdT), (Qeq_bool_true _ _ Hz).
    cbn [gt negb]. now rewrite andb_false_r.
  - rewrite (div_zero_duration _ _ Hp HdT), Qeq_bool_false by lra.
    destruct (enableMomentum cfg); reflexivity.
Qed.


Lemma velocity_antitone (a dT1 dT2 : Q) :
  0 <= a -> 0 < dT2 -> dT2 <= dT1 -> a / dT1 <= a / dT2.
Proof.
  intros Ha H2 H12.
  assert (H1 : 0 < dT1) by lra.
  apply Qle_shift_div_l; trivial.
  apply Qle_trans with (a / dT1 * dT1).
  - assert (Hv : 0 <= a / dT1) by (apply Qle_shift_div_l; trivial; lra).
    rewrite !(Qmult_comm (a / dT1)).
    apply Qmult_le_compat_r; trivial.
  - rewrite Qmult_comm, Qmult_div_r by lra. apply Qle_refl.
Qed.

Section MomentumStep.

Variables a m : Q.
Hypothesis a_nonneg : 0 <= a.

Lemma momentum_step_cap (v : Q) :
  0 <= m -> a * (m * Qmin v 2) <= a * m * 2.
Proof.
  intros Hm. pose proof (Q.le_min_r v 2) as Hcap.
  rewrite <- Qmult_assoc, !(Qmult_comm a).
  apply Qmult_le_compat_r; trivial.
  rewrite !(Qmult_comm m). apply Qmult_le_compat_r; trivial.
Qed.

Lemma momentum_step_ge (v : Q) :
  2 <= m -> 1 # 2 < v -> a <= a * (m * Qmin v 2).
Proof.
  intros Hm Hv.
  assert (Hmin : 1 # 2 <= Qmin v 2) by (apply Q.min_glb; lra).
  assert (H1 : 1 <= m * Qmin v 2).
  { apply Qle_trans with (2 * (1 # 2)); [lra | ].
    apply Qmult_le_compat_nonneg; split; lra. }
  apply Qle_trans with (a * 1); [lra | ].
  rewrite !(Qmult_comm a). apply Qmult_le_compat_r; trivial.
Qed.

Lemma momentum_step_mono (v1 v2 : Q) :
  0 <= m -> v1 <= v2 -> a * (m * Qmin v1 2) <= a * (m * Qmin v2 2).
Proof.
  intros Hm Hv.
  assert (Hmin : Qmin v1 2 <= Qmin v2 2).
  { apply Q.min_glb; [ | apply Q.le_min_r].
    apply Qle_trans with v1; [apply Q.le_min_l | trivial]. }
  rewrite !(Qmult_comm a). apply Qmult_le_compat_r; trivial.
  rewrite !(Qmult_comm m). apply Qmult_le_compat_r; trivial.
Qed.

End MomentumStep.

(** C4.  On the default configuration, an interaction that starts at
    (100,500) at t=0 and ends at (100,440) at t=100 with the page scrolled to
    200 is classified as up, takes the momentum branch (velocity 0.6 > 0.5),
    has scrollAmount 90 and issues exactly one scroll command, to 290. *)
Theorem C4_end_to_end :
  let start := (mkEnv 0 200 200 800 [],
                TouchStart (mkEvent (Some [mkTouch 100 500])
                                    (Some [mkTouch 100 500]))) in
  let finish := (mkEnv 100 200 200 800 [],
                 TouchEnd (mkEvent (Some []) (Some [mkTouch 100 440]))) in
  let fresh := new DEFAULT_CONFIG empty_page in
  let dY := 440 - 500 in
  let dT := 100 - 0 in
  isValidSwipe DEFAULT_CONFIG (100 - 100) dY = true /\
  getSwipeDirection DEFAULT_CONFIG (100 - 100) dY = up /\
  Num.div (Qabs dY) dT = Fin (Qabs dY / dT) /\ Qabs dY / dT == 6 # 10 /\
  Num.gt (Num.div (Qabs dY) dT) (Fin (1 # 2)) = true /\
  Num.eq (scrollAmount DEFAULT_CONFIG dY dT) (Fin 90) /\
  exists top,
    scrollCalls (snd (run (fst fresh) (snd fresh) [start; finish])) =
      [(Fin top, "smooth"%string)] /\
    top == 290.
Proof.
  cbv zeta.
  repeat split; try reflexivity.
  eexists. split; [vm_compute; reflexivity | reflexivity].
Qed.

(** C9.  With momentum enabled, a zero-duration interaction that moved has
    an infinite velocity: the momentum branch is taken, the velocity factor
    is exactly the cap 2, and scrollAmount is the finite number
    |deltaY| * momentumMultiplier * 2. *)
Theorem C9_zero_duration (cfg : Config) (dY dT : Q) :
  enableMomentum cfg = true ->
  dT == 0 ->
  0 < Qabs dY ->
  Num.div (Qabs dY) dT = PInf /\
  Num.gt (Num.div (Qabs dY) dT) (Fin (1 # 2)) = true /\
  Num.min (Num.div (Qabs dY) dT) (Fin 2) = Fin 2 /\
  scrollAmount cfg dY dT = Fin (Qabs dY * (momentumMultiplier cfg * 2)) /\
  Num.eq (scrollAmount cfg dY dT) (Fin (Qabs dY * momentumMultiplier cfg * 2)).
Proof.
  intros Hmom HdT Hmoved.
  pose proof (div_zero_duration _ _ Hmoved HdT) as Hv.
  assert (Hs : scrollAmount cfg dY dT =
               Fin (Qabs dY * (momentumMultiplier cfg * 2))).
  { unfold scrollAmount. rewrite Hv, Hmom. reflexivity. }
  rewrite Hv, Hs. repeat split. cbn. ring.
Qed.

Lemma C9_zero_duration_witness :
  scrollAmount DEFAULT_CONFIG (440 - 500) (0 - 0) =
  Fin (Qabs (440 - 500) * ((5 # 2) * 2)).
Proof.
  apply (C9_zero_duration DEFAULT_CONFIG (440 - 500) (0 - 0)).
  - reflexivity.
  - reflexivity.
  - reflexivity.
Defined.

(** C5, as the code has it.  For a fixed deltaY and a momentumMultiplier of
    at least 2 (the default is 2.5), scrollAmount does not decrease when the
    elapsed time decreases (down to zero), and it never exceeds
    |deltaY| * momentumMultiplier * 2. *)
Theorem C5_momentum_monotone (cfg : Config) (dY dT1 dT2 : Q) :
  2 <= momentumMultiplier cfg ->
  0 <= dT2 -> dT2 <= dT1 ->
  Num.le (scrollAmount cfg dY dT1) (scrollAmount cfg dY dT2) /\
  Num.le (scrollAmount cfg dY dT1) (Fin (Qabs dY * momentumMultiplier cfg * 2)).
Proof.
  intros Hm H2 H12.
  pose proof (Qabs_nonneg dY) as Ha.
  set (a := Qabs dY) in *. set (m := momentumMultiplier cfg) in *.
  assert (Hcap0 : a <= a * m * 2).
  { apply Qle_trans with (a * (m * Qmin 1 2)).
    - apply momentum_step_ge; trivial. lra.
    - apply momentum_step_cap; trivial. lra. }
  assert (Hbound : forall dT, Num.le (scrollAmount cfg dY dT) (Fin (a * m * 2))).
  { intros dT. destruct (Qeq_dec dT 0) as [Hz | Hnz].
    - rewrite (scrollAmount_zero_duration _ _ _ Hz). fold a m.
      destruct (_ && _); cbn [le]; trivial. rewrite Qmult_assoc. apply Qle_refl.
    - rewrite (scrollAmount_positive_duration _ _ _ Hnz). fold a m.
      destruct (_ && _); cbn [le]; trivial.
      apply momentum_step_cap; trivial. lra. }
  split; [ | apply Hbound].
  destruct (Qeq_dec dT1 0) as [Hz1 | Hnz1].
  - assert (Hz2 : dT2 == 0) by lra.
    rewrite (scrollAmount_zero_duration _ _ _ Hz1),
            (scrollAmount_zero_duration _ _ _ Hz2).
    destruct (_ && _); cbn [le]; apply Qle_refl.
  - rewrite (scrollAmount_positive_duration _ _ _ Hnz1). fold a m.
    destruct (Qeq_dec dT2 0) as [Hz2 | Hnz2].
    + rewrite (scrollAmount_zero_duration _ _ _ Hz2). fold a m.
      destruct (enableMomentum cfg); cbn [andb le]; [ | apply Qle_refl].
      destruct (gtb (a / dT1) (1 # 2)) eqn:Hv1.
      * apply gtb_true_iff in Hv1.
        assert (Hpos : ~ a == 0).
        { intros Ha0. rewrite Ha0 in Hv1. unfold Qdiv in Hv1.
          rewrite Qmult_0_l in Hv1. lra. }
        rewrite (Qeq_bool_false _ _ Hpos). cbn [negb le].
        rewrite <- (Qmult_assoc a m 2) in Hcap0.
        apply Qle_trans with (a * m * 2);
          [apply momentum_step_cap; trivial; lra | ].
        rewrite Qmult_assoc. apply Qle_refl.
      * destruct (negb (Qeq_bool a 0)); cbn [le]; [ | apply Qle_refl].
        rewrite <- Qmult_assoc in Hcap0. exact Hcap0.
    + rewrite (scrollAmount_positive_duration _ _ _ Hnz2). fold a m.
      assert (Hv : a / dT1 <= a / dT2) by (apply velocity_antitone; trivial; lra).
      destruct (enableMomentum cfg); cbn [andb le]; [ | apply Qle_refl].
      destruct (gtb (a / dT1) (1 # 2)) eqn:Hv1,
               (gtb (a / dT2) (1 # 2)) eqn:Hv2; cbn [le].
      * apply momentum_step_mono; trivial. lra.
      * apply gtb_true_iff in Hv1. apply gtb_false_iff in Hv2. lra.
      * apply gtb_true_iff in Hv2. apply momentum_step_ge; trivial.
      * apply Qle_refl.
Qed.

Lemma C5_momentum_monotone_witness :
  Num.le (scrollAmount DEFAULT_CONFIG (-60) 200) (scrollAmount DEFAULT_CONFIG (-60) 100) /\
  Num.le (scrollAmount DEFAULT_CONFIG (-60) 200) (Fin (Qabs (-60) * (5 # 2) * 2)).
Proof.
  apply (C5_momentum_monotone DEFAULT_CONFIG (-60) 200 100).
  - discriminate.
  - discriminate.
  - discriminate.
Defined.

(** With momentumMultiplier = 1 a faster swipe scrolls less than a slower
    one: for deltaY = 100, an elapsed time of 250 ms (velocity 0.4) gives
    scrollAmount 100 and an elapsed time of 125 ms (velocity 0.8) gives 80.
    With momentumMultiplier = 1/4 a slow swipe exceeds the bound
    |deltaY| * momentumMultiplier * 2. *)
Lemma C5_small_multiplier_decreases :
  let cfg := set_momentumMultiplier DEFAULT_CONFIG 1 in
  let cfg' := set_momentumMultiplier DEFAULT_CONFIG (1 # 4) in
  enableMomentum cfg = true /\
  minSwipeDistance cfg < Qabs 100 /\
  Num.eq (scrollAmount cfg 100 250) (Fin 100) /\
  Num.eq (scrollAmount cfg 100 125) (Fin 80) /\
  ~ Num.le (scrollAmount cfg 100 250) (scrollAmount cfg 100 125) /\
  ~ Num.le (scrollAmount cfg' 100 250) (Fin (Qabs 100 * momentumMultiplier cfg' * 2)).
Proof.
  cbv zeta. repeat split; try reflexivity; vm_compute; intros H; now apply H.
Qed.

(** ** Fields the handlers never read *)

Ltac same_but H h1 h2 :=
  destruct h1, h2; unfold unlock, forget, set_isScrolling, set_lastScrollTop in H;
  cbn in H; injection H; intros; subst.

Ltac break_match :=
  repeat match goal with
         | |- context [match ?x with _ => _ end] => destruct x eqn:?
         end.

Ltac unfold_handlers :=
  unfold step, handleTouchStart, handleTouchMove, handleTouchEnd,
    handleTouchCancel, handleVerticalScroll, showGradient,
    snapToNearestSection, call_onSwipe, resetTouch, fire,
    unlock, forget, set_start, set_isScrolling, set_lastScrollTop;
  cbn [config touchStartX touchStartY touchStartTime lastScrollTop isScrolling
       gradientOverlay gradientOverlayBottom fst snd].

(** A move event changes nothing but the axis lock. *)
Lemma handleTouchMove_unlock (h : Handler) (e : TouchEvent) :
  unlock (handleTouchMove h e) = unlock h.
Proof. unfold_handlers. break_match; reflexivity. Qed.

(** The outcome of a step does not depend on the axis lock, and the axis
    lock is all a later state can inherit from it. *)
Lemma step_unlock (h1 h2 : Handler) (env : Env) (d : Dom) (ev : Event) :
  unlock h1 = unlock h2 ->
  fst (fst (step h1 env d ev)) = fst (fst (step h2 env d ev)) /\
  snd (step h1 env d ev) = snd (step h2 env d ev) /\
  unlock (snd (fst (step h1 env d ev))) = unlock (snd (fst (step h2 env d ev))).
Proof.
  intros H. same_but H h1 h2.
  destruct ev; unfold_handlers; break_match;
    cbn; repeat split; congruence.
Qed.

(** The outcome of a step does not depend on [lastScrollTop] either. *)
Lemma step_forget (h1 h2 : Handler) (env : Env) (d : Dom) (ev : Event) :
  forget h1 = forget h2 ->
  fst (fst (step h1 env d ev)) = fst (fst (step h2 env d ev)) /\
  snd (step h1 env d ev) = snd (step h2 env d ev) /\
  forget (snd (fst (step h1 env d ev))) = forget (snd (fst (step h2 env d ev))).
Proof.
  intros H. same_but H h1 h2.
  destruct ev; unfold_handlers; break_match;
    cbn; repeat split; congruence.
Qed.

Lemma run_unlock (tr : list (Env * Event)) (h1 h2 : Handler) (d : Dom) :
  unlock h1 = unlock h2 ->
  snd (run h1 d tr) = snd (run h2 d tr) /\
  unlock (fst (run h1 d tr)) = unlock (fst (run h2 d tr)).
Proof.
  revert h1 h2 d. induction tr as [ | [env ev] tr IH]; intros h1 h2 d H.
  - cbn. auto.
  - cbn [run].
    destruct (step_unlock h1 h2 env d ev H) as (Hc & Hd & Hh).
    destruct (step h1 env d ev) as [[c1 h1'] d1].
    destruct (step h2 env d ev) as [[c2 h2'] d2].
    cbn in Hc, Hd, Hh. subst c2 d2. now apply IH.
Qed.

Lemma run_forget (tr : list (Env * Event)) (h1 h2 : Handler) (d : Dom) :
  forget h1 = forget h2 ->
  snd (run h1 d tr) = snd (run h2 d tr) /\
  forget (fst (run h1 d tr)) = forget (fst (run h2 d tr)).
Proof.
  revert h1 h2 d. induction tr as [ | [env ev] tr IH]; intros h1 h2 d H.
  - cbn. auto.
  - cbn [run].
    destruct (step_forget h1 h2 env d ev H) as (Hc & Hd & Hh).
    destruct (step h1 env d ev) as [[c1 h1'] d1].
    destruct (step h2 env d ev) as [[c2 h2'] d2].
    cbn in Hc, Hd, Hh. subst c2 d2. now apply IH.
Qed.

Lemma run_app (tr1 tr2 : list (Env * Event)) (h : Handler) (d : Dom) :
  run h d (tr1 ++ tr2) = run (fst (run h d tr1)) (snd (run h d tr1)) tr2.
Proof.
  revert h d. induction tr1 as [ | [env ev] tr1 IH]; intros h d; cbn; trivial.
  destruct (step h env d ev) as [[c h1] d1]. apply IH.
Qed.

Lemma run_moves (ms : list (Env * TouchEvent)) (h : Handler) (d : Dom) :
  snd (run h d (moves ms)) = d /\
  unlock (fst (run h d (moves ms))) = unlock h.
Proof.
  revert h. induction ms as [ | [env e] ms IH]; intros h; [cbn; auto | ].
  change (run h d (moves ((env, e) :: ms)))
    with (run (handleTouchMove h e) d (moves ms)).
  destruct (IH (handleTouchMove h e)) as [Hd Hh]. split; trivial.
  rewrite Hh. apply handleTouchMove_unlock.
Qed.

(** ** Moves, cancels and later interactions *)

Lemma resetTouch_unlock (h1 h2 : Handler) :
  unlock h1 = unlock h2 -> resetTouch h1 = resetTouch h2.
Proof. intros H. same_but H h1 h2. reflexivity. Qed.

Lemma resetTouch_idle (h : Handler) : idle h -> resetTouch h = h.
Proof.
  destruct h. unfold idle. cbn. intros (-> & -> & -> & ->). reflexivity.
Qed.

Lemma idle_resetTouch (h : Handler) : idle (resetTouch h).
Proof. repeat split. Qed.

Lemma forget_reset_start (h : Handler) (env : Env) (e : TouchEvent) :
  forget (resetTouch (handleTouchStart h env e)) = forget (resetTouch h).
Proof. unfold_handlers. break_match; reflexivity. Qed.

(** An accepted start event overwrites the origin, the axis lock and
    [lastScrollTop]: what they held before does not matter. *)
Lemma handleTouchStart_overwrites (h1 h2 : Handler) (env : Env) (e : TouchEvent) :
  first_touch (touches e) <> None ->
  forget (resetTouch h1) = forget (resetTouch h2) ->
  handleTouchStart h1 env e = handleTouchStart h2 env e.
Proof.
  intros He H. destruct h1, h2. unfold_handlers. cbn in H.
  injection H; intros; subst.
  destruct (first_touch (touches e)); [reflexivity | congruence].
Qed.

(** C10.  Two interactions with the same start event and the same end event
    (same positions, same times, same page readings) leave the page in the
    same state -- the same onSwipe invocations with the same direction,
    deltas and elapsed time, the same scroll commands, timers and reported
    exceptions -- whatever move events, how many and at what positions, come
    in between; the handlers they leave behind differ at most in the axis
    lock. *)
Theorem C10_moves_irrelevant (h : Handler) (d : Dom) (s e : Env * TouchEvent)
        (ms1 ms2 : list (Env * TouchEvent)) :
  let interaction ms :=
    (fst s, TouchStart (snd s)) :: moves ms ++ [(fst e, TouchEnd (snd e))] in
  snd (run h d (interaction ms1)) = snd (run h d (interaction ms2)) /\
  swipeCalls (snd (run h d (interaction ms1))) =
    swipeCalls (snd (run h d (interaction ms2))) /\
  scrollCalls (snd (run h d (interaction ms1))) =
    scrollCalls (snd (run h d (interaction ms2))) /\
  unlock (fst (run h d (interaction ms1))) =
    unlock (fst (run h d (interaction ms2))).
Proof.
  intros interaction.
  assert (H : snd (run h d (interaction ms1)) = snd (run h d (interaction ms2)) /\
              unlock (fst (run h d (interaction ms1))) =
              unlock (fst (run h d (interaction ms2)))).
  { unfold interaction.
    change (run h d ((fst s, TouchStart (snd s))
                       :: moves ms1 ++ [(fst e, TouchEnd (snd e))]))
      with (run (handleTouchStart h (fst s) (snd s)) d
                (moves ms1 ++ [(fst e, TouchEnd (snd e))])).
    change (run h d ((fst s, TouchStart (snd s))
                       :: moves ms2 ++ [(fst e, TouchEnd (snd e))]))
      with (run (handleTouchStart h (fst s) (snd s)) d
                (moves ms2 ++ [(fst e, TouchEnd (snd e))])).
    rewrite !run_app.
    set (hs := handleTouchStart h (fst s) (snd s)).
    destruct (run_moves ms1 hs d) as [Hd1 Hh1].
    destruct (run_moves ms2 hs d) as [Hd2 Hh2].
    rewrite Hd1, Hd2. apply run_unlock. congruence. }
  destruct H as [Hd Hh]. rewrite Hd. auto.
Qed.

(** C8.  On an idle handler, start -> moves -> cancel leaves the page
    untouched (no onSwipe invocation, no scroll command, no timer) and the
    handler idle and equal to what it was up to [lastScrollTop], which no
    handler reads: every later event sequence has the same effect on the
    page as on the handler before the cancelled interaction, and after an
    accepted start event the two handlers are equal. *)
Theorem C8_cancel_discards (h : Handler) (d : Dom) (s c : Env * TouchEvent)
        (ms : list (Env * TouchEvent)) :
  idle h ->
  let cancelled :=
    (fst s, TouchStart (snd s)) :: moves ms ++ [(fst c, TouchCancel (snd c))] in
  let h' := fst (run h d cancelled) in
  snd (run h d cancelled) = d /\
  idle h' /\
  forget h' = forget h /\
  (forall d' later,
      snd (run h' d' later) = snd (run h d' later) /\
      forget (fst (run h' d' later)) = forget (fst (run h d' later))) /\
  (forall d' env e later,
      first_touch (touches e) <> None ->
      run h' d' ((env, TouchStart e) :: later) =
      run h d' ((env, TouchStart e) :: later)).
Proof.
  intros Hidle cancelled h'.
  set (hs := handleTouchStart h (fst s) (snd s)).
  assert (Hrun : run h d cancelled =
                 (resetTouch (fst (run hs d (moves ms))), d)).
  { unfold cancelled.
    change (run h d ((fst s, TouchStart (snd s))
                       :: moves ms ++ [(fst c, TouchCancel (snd c))]))
      with (run hs d (moves ms ++ [(fst c, TouchCancel (snd c))])).
    rewrite run_app. destruct (run_moves ms hs d) as [Hd _].
    rewrite Hd. reflexivity. }
  assert (Hh' : h' = resetTouch hs).
  { unfold h'. rewrite Hrun. cbn [fst].
    apply resetTouch_unlock. apply run_moves. }
  assert (Hforget : forget h' = forget h).
  { rewrite Hh'. unfold hs. rewrite forget_reset_start.
    now rewrite (resetTouch_idle h Hidle). }
  split; [now rewrite Hrun | ].
  split; [rewrite Hh'; apply idle_resetTouch | ].
  split; [exact Hforget | ].
  split.
  - intros d' later. now apply run_forget.
  - intros d' env e later He.
    change (run h' d' ((env, TouchStart e) :: later))
      with (run (handleTouchStart h' env e) d' later).
    change (run h d' ((env, TouchStart e) :: later))
      with (run (handleTouchStart h env e) d' later).
    rewrite (handleTouchStart_overwrites h' h env e He); trivial.
    rewrite (resetTouch_idle h Hidle).
    rewrite (resetTouch_idle h'); [exact Hforget | ].
    rewrite Hh'. apply idle_resetTouch.
Qed.

Lemma C8_cancel_discards_witness :
  let fresh := new DEFAULT_CONFIG empty_page in
  snd (run (fst fresh) (snd fresh)
           ((fst start_example, TouchStart (snd start_example))
              :: moves [move_example]
              ++ [(fst cancel_example, TouchCancel (snd cancel_example))])) =
  snd fresh.
Proof.
  apply (C8_cancel_discards (fst (new DEFAULT_CONFIG empty_page))
           (snd (new DEFAULT_CONFIG empty_page))
           start_example cancel_example [move_example]).
  repeat split.
Defined.

(** ** A callback that throws *)

(** C1, as the code has it.  When an interaction is accepted as a swipe and
    the onSwipe callback throws, the exception is not caught: it leaves the
    touch-end handler, the momentum scroller does not run and the gesture
    state is left as it was.  A later interaction that begins with an
    accepted start event runs as it would have had the callback returned
    normally, that is, as from the reset state. *)
Theorem C1_callback_throw_propagates (h : Handler) (env : Env) (d : Dom)
        (e : TouchEvent) (touch : Touch) (x0 y0 t0 : Q)
        (f : Direction -> SwipeInfo -> Completion) :
  tracking h x0 y0 t0 ->
  first_touch (changedTouches e) = Some touch ->
  let dX := clientX touch - x0 in
  let dY := clientY touch - y0 in
  let dT := now env - t0 in
  let direction := getSwipeDirection (config h) dX dY in
  isValidSwipe (config h) dX dY = true ->
  onSwipe (config h) = Some f ->
  f direction (mkInfo dX dY dT) = Throw ->
  handleTouchEnd h env d e =
    (Throw, h, set_swipeCalls d (swipeCalls d ++ [(direction, mkInfo dX dY dT)])) /\
  scrollCalls (snd (handleTouchEnd h env d e)) = scrollCalls d /\
  timers (snd (handleTouchEnd h env d e)) = timers d /\
  (forall d' env' e' later,
      first_touch (touches e') <> None ->
      run h d' ((env', TouchStart e') :: later) =
      run (resetTouch h) d' ((env', TouchStart e') :: later)).
Proof.
  intros Htr He dX dY dT direction Hvalid Hf Hthrow.
  pose proof (handleTouchEnd_tracking h env d e touch x0 y0 t0 Htr He) as Hend.
  cbv zeta in Hend. fold dX dY dT in Hend. fold direction in Hend.
  rewrite Hvalid in Hend. unfold call_onSwipe in Hend.
  rewrite Hf, Hthrow in Hend. rewrite Hend.
  repeat split.
  intros d' env' e' later He'.
  change (run h d' ((env', TouchStart e') :: later))
    with (run (handleTouchStart h env' e') d' later).
  change (run (resetTouch h) d' ((env', TouchStart e') :: later))
    with (run (handleTouchStart (resetTouch h) env' e') d' later).
  now rewrite (handleTouchStart_overwrites h (resetTouch h) env' e' He').
Qed.

Lemma C1_callback_throw_propagates_witness :
  handleTouchEnd throwing_example (env_example 100) empty_page end_example =
  (Throw, throwing_example,
   set_swipeCalls empty_page
     (swipeCalls empty_page
        ++ [(getSwipeDirection (config throwing_example) (100 - 100) (440 - 500),
             mkInfo (100 - 100) (440 - 500) (100 - 0))])).
Proof.
  apply (C1_callback_throw_propagates throwing_example (env_example 100)
           empty_page end_example (mkTouch 100 440) 100 500 0 throwing).
  - repeat split.
  - reflexivity.
  - reflexivity.
  - reflexivity.
  - reflexivity.
Defined.

(** A valid swipe on a handler whose onSwipe callback throws: the exception
    leaves the touch-end handler, and origin and state are not reset. *)
Lemma C1_throw_not_swallowed :
  let r := handleTouchEnd throwing_example (env_example 100) empty_page
                          end_example in
  isValidSwipe (config throwing_example) (100 - 100) (440 - 500) = true /\
  fst (fst r) = Throw /\
  touchStartY (snd (fst r)) = Some 500 /\
  ~ idle (snd (fst r)) /\
  snd (fst r) <> resetTouch throwing_example.
Proof.
  cbv zeta. repeat split; try reflexivity.
  - intros (Hx & _). discriminate Hx.
  - intros H. discriminate H.
Qed.

(** ** The origin *)

Lemma step_origin (h : Handler) (env : Env) (d : Dom) (ev : Event) :
  let h' := snd (fst (step h env d ev)) in
  same_origin h' h \/ origin_set h' \/ origin_clear h'.
Proof.
  destruct h, ev; unfold_handlers; break_match; cbn;
    unfold same_origin, origin_set, origin_clear; cbn;
    first [ left; repeat split; reflexivity
          | right; left; repeat split; discriminate
          | right; right; repeat split; reflexivity ].
Qed.

Lemma run_origin (tr : list (Env * Event)) (h : Handler) (d : Dom) :
  origin_set h \/ origin_clear h ->
  origin_set (fst (run h d tr)) \/ origin_clear (fst (run h d tr)).
Proof.
  revert h d. induction tr as [ | [env ev] tr IH]; intros h d H; [exact H | ].
  cbn [run]. pose proof (step_origin h env d ev) as Hstep.
  destruct (step h env d ev) as [[c h1] d1]. cbn in Hstep. apply IH.
  destruct Hstep as [(Hx & Hy & Ht) | [Hs | Hc]]; auto.
  unfold origin_set, origin_clear in *. rewrite Hx, Hy, Ht. exact H.
Qed.

(** When the touch-end handler throws, it has not changed the handler. *)
Lemma handleTouchEnd_throw (h : Handler) (env : Env) (d : Dom) (e : TouchEvent) :
  fst (fst (handleTouchEnd h env d e)) = Throw ->
  snd (fst (handleTouchEnd h env d e)) = h.
Proof.
  destruct h as [cfg x0 y0 t0 l b o1 o2]. unfold_handlers.
  destruct (onSwipe cfg); cbn; break_match; cbn; congruence.
Qed.

(** C6, as the code has it.  The three origin fields are null together or
    non-null together, after every event sequence.  Every accepted start
    event sets them; every cancel event clears them; every end event that
    carries a changed touch clears them when its handler returns normally.
    An end event without a changed touch is ignored, and an end event whose
    onSwipe callback throws is abandoned: both leave the handler as it was.
    Move events and timeouts leave the origin as it is. *)
Theorem C6_origin_lifecycle (h : Handler) (env : Env) (d : Dom) (e : TouchEvent) :
  origin_set h \/ origin_clear h ->
  (forall tr, origin_set (fst (run h d tr)) \/ origin_clear (fst (run h d tr))) /\
  (first_touch (touches e) <> None -> origin_set (handleTouchStart h env e)) /\
  origin_clear (handleTouchCancel h) /\
  (first_touch (changedTouches e) <> None ->
   fst (fst (handleTouchEnd h env d e)) = Normal ->
   origin_clear (snd (fst (handleTouchEnd h env d e)))) /\
  (first_touch (changedTouches e) = None ->
   handleTouchEnd h env d e = (Normal, h, d)) /\
  (fst (fst (handleTouchEnd h env d e)) = Throw ->
   snd (fst (handleTouchEnd h env d e)) = h) /\
  same_origin (handleTouchMove h e) h /\
  (forall n, same_origin (snd (fst (step h env d (Timeout n)))) h).
Proof.
  intros H.
  split; [intros tr; now apply run_origin | ].
  split.
  { intros He. unfold handleTouchStart.
    destruct (first_touch (touches e)); [ | congruence].
    repeat split; discriminate. }
  split; [repeat split | ].
  split.
  { intros He. destruct H as [(Hx & Hy & Ht) | (Hx & Hy & Ht)].
    - destruct h as [cfg [x0 | ] [y0 | ] [t0 | ] l b o1 o2];
        cbn in Hx, Hy, Ht; try congruence.
      unfold_handlers. cbn [is_null andb].
      break_match; cbn; try congruence; intros _; repeat split.
    - intros _. unfold handleTouchEnd. rewrite Hx, Hy. cbn.
      repeat split; trivial. }
  split.
  { intros He. unfold handleTouchEnd. rewrite He.
    now destruct (is_null (touchStartY h) && is_null (touchStartX h)). }
  split; [apply handleTouchEnd_throw | ].
  split.
  { destruct h. unfold_handlers. break_match; repeat split. }
  intros n. destruct h. unfold_handlers. break_match; repeat split.
Qed.

Lemma C6_origin_lifecycle_witness :
  origin_clear (handleTouchCancel tracking_example).
Proof.
  refine (proj1 (proj2 (proj2
            (C6_origin_lifecycle tracking_example (env_example 100) empty_page
                                 end_example _)))).
  left. repeat split; discriminate.
Defined.

(** An end event with an empty list of changed touches, and an end event
    whose onSwipe callback throws, both leave the origin set. *)
Lemma C6_end_leaves_origin :
  let malformed := mkEvent (Some []) (Some []) in
  origin_set tracking_example /\
  origin_set (snd (fst (step tracking_example (env_example 100) empty_page
                             (TouchEnd malformed)))) /\
  origin_set (snd (fst (step throwing_example (env_example 100) empty_page
                             (TouchEnd end_example)))).
Proof. cbv zeta. repeat split; discriminate. Qed.

(** ** Teardown *)

(** The handlers touch neither the children of the body, nor the listeners,
    nor the overlay fields. *)
Lemma step_keeps (h : Handler) (env : Env) (d : Dom) (ev : Event) :
  let r := step h env d ev in
  body (snd r) = body d /\
  listeners (snd r) = listeners d /\
  gradientOverlay (snd (fst r)) = gradientOverlay h /\
  gradientOverlayBottom (snd (fst r)) = gradientOverlayBottom h.
Proof.
  destruct h as [cfg x0 y0 t0 l b o1 o2], ev; unfold_handlers;
    destruct (onSwipe cfg); cbn; break_match; cbn; repeat split.
Qed.

Lemma report_keeps (c : Completion) (d : Dom) :
  body (report c d) = body d /\ listeners (report c d) = listeners d /\
  timers (report c d) = timers d /\ scrollCalls (report c d) = scrollCalls d.
Proof. destruct c; repeat split. Qed.

Lemma run_keeps (tr : list (Env * Event)) (h : Handler) (d : Dom) :
  body (snd (run h d tr)) = body d /\
  listeners (snd (run h d tr)) = listeners d /\
  gradientOverlay (fst (run h d tr)) = gradientOverlay h /\
  gradientOverlayBottom (fst (run h d tr)) = gradientOverlayBottom h.
Proof.
  revert h d. induction tr as [ | [env ev] tr IH]; intros h d; [cbn; auto | ].
  cbn [run]. pose proof (step_keeps h env d ev) as Hs.
  destruct (step h env d ev) as [[c h1] d1]. cbn in Hs.
  destruct Hs as (Hb & Hl & Ht & Hbot).
  destruct (IH h1 (report c d1)) as (Hb' & Hl' & Ht' & Hbot').
  destruct (report_keeps c d1) as (Hrb & Hrl & _).
  repeat split; congruence.
Qed.

Lemma destroy_fields (h : Handler) (d : Dom) :
  gradientOverlay (fst (destroy h d)) = None /\
  gradientOverlayBottom (fst (destroy h d)) = None /\
  listeners (snd (destroy h d)) = listeners d /\
  timers (snd (destroy h d)) = timers d /\
  scrollCalls (snd (destroy h d)) = scrollCalls d.
Proof.
  unfold destroy.
  destruct (gradientOverlay h) eqn:Ht, (gradientOverlayBottom h) eqn:Hb;
    cbn; rewrite ?Ht, ?Hb; cbn; repeat split; assumption.
Qed.

Lemma destroy_twice (h : Handler) (d : Dom) :
  destroy (fst (destroy h d)) (snd (destroy h d)) = destroy h d.
Proof.
  destruct (destroy_fields h d) as (Ht & Hb & _).
  destruct (destroy h d) as [h1 d1]. cbn in *.
  unfold destroy. rewrite Ht, Hb. reflexivity.
Qed.

Lemma destroy_body (h : Handler) (d : Dom) (n : nat) :
  gradientOverlay h = Some n \/ gradientOverlayBottom h = Some n ->
  ~ In n (body (snd (destroy h d))).
Proof.
  assert (Hf : forall k (l : list nat),
             ~ In k (filter (fun m => negb (Nat.eqb m k)) l)).
  { intros k l Hin. apply filter_In in Hin. destruct Hin as [_ Hk].
    now rewrite Nat.eqb_refl in Hk. }
  assert (Hg : forall k j (l : list nat),
             ~ In k l -> ~ In k (filter (fun m => negb (Nat.eqb m j)) l)).
  { intros k j l Hk Hin. apply filter_In in Hin. tauto. }
  unfold destroy.
  destruct (gradientOverlay h) as [t | ] eqn:Ht,
           (gradientOverlayBottom h) as [b | ] eqn:Hb;
    cbn; rewrite ?Ht, ?Hb; cbn; intros [H | H]; inversion H; subst; auto.
Qed.

Lemma destroy_body_subset (h : Handler) (d : Dom) (n : nat) :
  In n (body (snd (destroy h d))) -> In n (body d).
Proof.
  unfold destroy.
  destruct (gradientOverlay h) as [t | ] eqn:Ht,
           (gradientOverlayBottom h) as [b | ] eqn:Hb;
    cbn; rewrite ?Ht, ?Hb; cbn; rewrite ?filter_In; tauto.
Qed.

(** C7, as the code has it.  destroy is idempotent and removes the overlays:
    after any use of a handler constructed on a page without overlay nodes,
    a second destroy changes nothing and no overlay node is left.  destroy
    does not unbind the touch listeners and does not cancel pending timers:
    the four listeners stay bound, the pending timers stay pending, and a
    touch event delivered after destroy is handled as any other. *)
Theorem C7_teardown (cfg : Config) (d0 : Dom) (tr : list (Env * Event)) :
  body d0 = [] ->
  let fresh := new cfg d0 in
  let used := run (fst fresh) (snd fresh) tr in
  let once := destroy (fst used) (snd used) in
  let twice := destroy (fst once) (snd once) in
  twice = once /\
  body (snd once) = [] /\
  gradientOverlay (fst once) = None /\
  gradientOverlayBottom (fst once) = None /\
  listeners (snd once) = listeners d0 ++ all_kinds /\
  timers (snd once) = timers (snd used) /\
  (forall env ev,
      deliver (fst once) env (snd once) ev = step (fst once) env (snd once) ev).
Proof.
  intros Hbody fresh used once twice.
  destruct (run_keeps tr (fst fresh) (snd fresh)) as (Hb & Hl & Ht & Hbot).
  fold used in Hb, Hl, Ht, Hbot.
  destruct (destroy_fields (fst used) (snd used)) as (Dt & Db & Dl & Dtm & _).
  fold once in Dt, Db, Dl, Dtm.
  assert (Hlisten : listeners (snd once) = listeners d0 ++ all_kinds).
  { rewrite Dl, Hl. unfold fresh, new.
    destruct (showVisualFeedback cfg && enableGradient cfg); reflexivity. }
  split; [apply destroy_twice | ].
  split.
  { assert (Hnone : forall n, ~ In n (body (snd once))).
    { intros n Hin.
      pose proof (destroy_body_subset _ _ _ Hin) as Hin'.
      rewrite Hb in Hin'.
      apply (destroy_body (fst used) (snd used) n); [ | exact Hin].
      rewrite Ht, Hbot. unfold fresh, new in Hin' |- *.
      destruct (showVisualFeedback cfg && enableGradient cfg);
        cbn in Hin' |- *; rewrite Hbody in Hin'; cbn in Hin'.
      - destruct Hin' as [<- | [<- | []]]; auto.
      - destruct Hin'. }
    destruct (body (snd once)) as [ | n l]; trivial.
    destruct (Hnone n). now left. }
  repeat split; trivial.
  intros env ev. unfold deliver.
  destruct (kind_of ev) as [k | ]; trivial.
  unfold listening. rewrite Hlisten, existsb_app.
  replace (existsb (EventKind_eqb k) all_kinds) with true
    by (destruct k; reflexivity).
  now rewrite orb_true_r.
Qed.

Lemma C7_teardown_witness :
  let used := run (fst (new DEFAULT_CONFIG empty_page))
                  (snd (new DEFAULT_CONFIG empty_page))
                  [(fst start_example, TouchStart (snd start_example))] in
  let once := destroy (fst used) (snd used) in
  destroy (fst once) (snd once) = once.
Proof.
  apply (C7_teardown DEFAULT_CONFIG empty_page
           [(fst start_example, TouchStart (snd start_example))]).
  reflexivity.
Defined.

(** After a swipe and a destroy, the hide timer of the swipe is still
    pending, the four listeners are still bound, and a second swipe still
    changes the handler state and issues a second scroll command. *)
Lemma C7_events_after_destroy :
  let fresh := new DEFAULT_CONFIG empty_page in
  let start := TouchStart (snd start_example) in
  let finish := TouchEnd end_example in
  let used := run (fst fresh) (snd fresh)
                  [(env_example 0, start); (env_example 100, finish)] in
  let once := destroy (fst used) (snd used) in
  let r1 := deliver (fst once) (env_example 1000) (snd once) start in
  let r2 := deliver (snd (fst r1)) (env_example 1100) (snd r1) finish in
  timers (snd used) = [(HideTop, 300)] /\
  timers (snd once) = [(HideTop, 300)] /\
  listeners (snd once) = all_kinds /\
  touchStartY (fst once) = None /\
  touchStartY (snd (fst r1)) = Some 500 /\
  List.length (scrollCalls (snd once)) = 1%nat /\
  List.length (scrollCalls (snd r2)) = 2%nat.
Proof. cbv zeta. repeat split; vm_compute; reflexivity. Qed.

(** * Further properties of the handler *)

(** ** Scroll commands *)

Lemma showGradient_scrollCalls (h : Handler) (d : Dom) (dir : Direction) :
  scrollCalls (showGradient h d dir) = scrollCalls d.
Proof.
  unfold showGradient.
  destruct (negb (enableGradient (config h))); trivial.
  destruct (Direction_eqb dir up), (gradientOverlay h),
    (Direction_eqb dir down), (gradientOverlayBottom h); reflexivity.
Qed.

Lemma snapToNearestSection_scrollCalls (h : Handler) (env : Env) (d : Dom) :
  scrollCalls (snapToNearestSection h env d) = scrollCalls d.
Proof.
  unfold snapToNearestSection.
  destruct (sectionTops env); trivial.
  destruct (nearest_from _ _ _ _ _) as [[i q0] | ]; reflexivity.
Qed.

(** The scroll command of [_handleVerticalScroll], whatever its target. *)
Lemma handleVerticalScroll_scrollCalls (h : Handler) (env : Env) (d : Dom)
      (dY dT : Q) (dir : Direction) :
  scrollCalls (handleVerticalScroll h env d dY dT dir) =
  scrollCalls d ++
    [(Num.max (Fin 0) (targetScrollTop (config h) env dY dT dir),
      scrollSmoothness (config h))].
Proof.
  unfold handleVerticalScroll.
  destruct (snapToSections (config h));
    rewrite ?snapToNearestSection_scrollCalls; cbn;
    now rewrite showGradient_scrollCalls.
Qed.

(** With a non-negative multiplier the scroll amount is a non-negative
    number. *)
Lemma scrollAmount_nonneg (cfg : Config) (dY dT : Q) :
  0 <= momentumMultiplier cfg ->
  exists a, scrollAmount cfg dY dT = Fin a /\ 0 <= a.
Proof.
  intros Hm. pose proof (Qabs_nonneg dY) as Ha.
  destruct (Qeq_dec dT 0) as [Hz | Hnz].
  - rewrite (scrollAmount_zero_duration _ _ _ Hz).
    destruct (_ && _); eexists; (split; [reflexivity | ]); trivial.
    apply Qmult_le_0_compat; trivial. apply Qmult_le_0_compat; lra.
  - rewrite (scrollAmount_positive_duration _ _ _ Hnz).
    destruct (enableMomentum cfg); cbn [andb]; [ | eauto].
    destruct (gtb (Qabs dY / dT) (1 # 2)) eqn:Hv; [ | eauto].
    apply gtb_true_iff in Hv.
    eexists; (split; [reflexivity | ]).
    apply Qmult_le_0_compat; trivial. apply Qmult_le_0_compat; trivial.
    apply Q.min_glb; lra.
Qed.


(** X2.  With a multiplier that is not negative, an up swipe never asks for
    a position before the current one, and any other direction never asks
    for a position beyond the current one (or beyond 0, for a page that
    reports a negative offset). *)
Theorem scroll_follows_direction (h : Handler) (env : Env) (d : Dom)
        (dY dT : Q) (dir : Direction) :
  0 <= momentumMultiplier (config h) ->
  exists top,
    scrollCalls (handleVerticalScroll h env d dY dT dir) =
      scrollCalls d ++ [(Fin top, scrollSmoothness (config h))] /\
    (dir = up -> currentScrollTop env <= top) /\
    (dir <> up -> top <= Qmax 0 (currentScrollTop env)).
Proof.
  intros Hm. rewrite handleVerticalScroll_scrollCalls. unfold targetScrollTop.
  destruct (scrollAmount_nonneg (config h) dY dT Hm) as (a & Ha & Hpos).
  rewrite Ha.
  destruct dir; cbn [Direction_eqb Num.add Num.sub Num.neg Num.max];
    eexists; (split; [reflexivity | ]); (split; [intros Hd | intros Hd]);
    try discriminate; try congruence.
  - apply Qle_trans with (currentScrollTop env + a); [lra | apply Q.le_max_r].
  - apply Q.max_lub; [apply Q.le_max_l | ].
    apply Qle_trans with (currentScrollTop env); [lra | apply Q.le_max_r].
  - apply Q.max_lub; [apply Q.le_max_l | ].
    apply Qle_trans with (currentScrollTop env); [lra | apply Q.le_max_r].
  - apply Q.max_lub; [apply Q.le_max_l | ].
    apply Qle_trans with (currentScrollTop env); [lra | apply Q.le_max_r].
Qed.

Lemma scroll_follows_direction_witness :
  exists top,
    scrollCalls (handleVerticalScroll tracking_example (env_example 100)
                                      empty_page (-60) 100 up) =
      scrollCalls empty_page
        ++ [(Fin top, scrollSmoothness (config tracking_example))] /\
    (up = up -> currentScrollTop (env_example 100) <= top) /\
    (up <> up -> top <= Qmax 0 (currentScrollTop (env_example 100))).
Proof.
  apply (scroll_follows_direction tracking_example (env_example 100)
           empty_page (-60) 100 up).
  discriminate.
Defined.

(** What a step can do to the log of scroll commands: nothing, or, for an
    end event, one more command. *)
Lemma step_scrollCalls (h : Handler) (env : Env) (d : Dom) (ev : Event) :
  let r := step h env d ev in
  config (snd (fst r)) = config h /\
  (scrollCalls (snd r) = scrollCalls d \/
   verticalOnly (config h) = true /\
   is_touchend (env, ev) = true /\
   exists c, scrollCalls (snd r) = scrollCalls d ++ [c]).
Proof.
  destruct ev as [e | e | e | e | n]; cbn [step].
  - split; [ | now left]. unfold handleTouchStart.
    now destruct (first_touch (touches e)).
  - split; [ | now left]. unfold handleTouchMove. break_match; reflexivity.
  - unfold handleTouchEnd, call_onSwipe.
    destruct (is_null (touchStartY h) && is_null (touchStartX h)); [cbn; auto | ].
    destruct (first_touch (changedTouches e)) as [touch | ]; [ | cbn; auto].
    cbv zeta. destruct (isValidSwipe _ _ _); [ | cbn; auto].
    destruct (onSwipe (config h)) as [f | ].
    + destruct (f _ _); [ | cbn; auto].
      destruct (verticalOnly (config h)) eqn:Hv; [ | cbn; auto].
      cbn [fst snd]. split; trivial. right. repeat split.
      rewrite handleVerticalScroll_scrollCalls. cbn. eauto.
    + destruct (verticalOnly (config h)) eqn:Hv; [ | cbn; auto].
      cbn [fst snd]. split; trivial. right. repeat split.
      rewrite handleVerticalScroll_scrollCalls. eauto.
  - cbn. auto.
  - destruct (nth_error (timers d) n) as [[a q] | ]; [ | cbn; auto].
    cbn [fst snd]. split; trivial. left. destruct a; cbn.
    + now destruct (gradientOverlay h).
    + now destruct (gradientOverlayBottom h).
    + reflexivity.
Qed.

Lemma report_scrollCalls (c : Completion) (d : Dom) :
  scrollCalls (report c d) = scrollCalls d.
Proof. now destruct c. Qed.

(** X3.  A handler that is not in vertical-only mode never issues a scroll
    command, whatever events it receives. *)
Theorem no_scroll_outside_vertical_mode (tr : list (Env * Event))
        (h : Handler) (d : Dom) :
  verticalOnly (config h) = false ->
  scrollCalls (snd (run h d tr)) = scrollCalls d.
Proof.
  revert h d. induction tr as [ | [env ev] tr IH]; intros h d Hv; trivial.
  cbn [run]. pose proof (step_scrollCalls h env d ev) as Hs.
  destruct (step h env d ev) as [[c h1] d1]. cbn in Hs.
  destruct Hs as [Hcfg [Hsame | (Hvert & _)]]; [ | congruence].
  rewrite IH by congruence. now rewrite report_scrollCalls.
Qed.

Lemma no_scroll_outside_vertical_mode_witness :
  let h := mkHandler (set_axis DEFAULT_CONFIG horizontal)
                     None None None 0 false None None in
  let tr := [(fst start_example, TouchStart (snd start_example));
             (env_example 100, TouchEnd (mkEvent (Some []) (Some [mkTouch 10 500])))] in
  scrollCalls (snd (run h empty_page tr)) = scrollCalls empty_page.
Proof.
  apply (no_scroll_outside_vertical_mode
           [(fst start_example, TouchStart (snd start_example));
            (env_example 100,
             TouchEnd (mkEvent (Some []) (Some [mkTouch 10 500])))]
           (mkHandler (set_axis DEFAULT_CONFIG horizontal)
                      None None None 0 false None None) empty_page).
  reflexivity.
Defined.


(** ** Events outside an interaction *)

(** X5.  On an idle handler, move, end and cancel events and start events
    without a touch point change neither the handler nor the page, however
    many there are and whatever they carry. *)
Theorem nothing_without_start (tr : list (Env * Event)) (h : Handler) (d : Dom) :
  idle h ->
  forallb passive_event tr = true ->
  run h d tr = (h, d).
Proof.
  intros Hidle. induction tr as [ | [env ev] tr IH]; intros Hp; trivial.
  cbn [forallb] in Hp. apply andb_true_iff in Hp. destruct Hp as [Hev Hrest].
  assert (Hstep : step h env d ev = (Normal, h, d)).
  { destruct Hidle as (Hx & Hy & Ht & Hs).
    destruct ev as [e | e | e | e | n]; cbn in Hev; cbn [step].
    - unfold handleTouchStart.
      destruct (first_touch (touches e)); [discriminate | reflexivity].
    - unfold handleTouchMove. now rewrite Hy.
    - unfold handleTouchEnd. now rewrite Hx, Hy.
    - unfold handleTouchCancel. rewrite resetTouch_idle; [reflexivity | ].
      repeat split; assumption.
    - discriminate. }
  cbn [run]. rewrite Hstep. cbn [report]. now apply IH.
Qed.

Lemma nothing_without_start_witness :
  let fresh := new DEFAULT_CONFIG empty_page in
  run (fst fresh) (snd fresh)
      [(env_example 0, TouchEnd end_example);
       (env_example 1, TouchCancel end_example);
       (env_example 2, TouchMove (snd move_example));
       (env_example 3, TouchStart (mkEvent (Some []) None))] =
  (fst fresh, snd fresh).
Proof.
  apply (nothing_without_start
           [(env_example 0, TouchEnd end_example);
            (env_example 1, TouchCancel end_example);
            (env_example 2, TouchMove (snd move_example));
            (env_example 3, TouchStart (mkEvent (Some []) None))]
           (fst (new DEFAULT_CONFIG empty_page))
           (snd (new DEFAULT_CONFIG empty_page))).
  - repeat split.
  - reflexivity.
Defined.

(** X6.  Once the axis lock is set, further move events change nothing: the
    lock stays set and the origin stays where it is. *)
Theorem axis_lock_is_kept (ms : list (Env * TouchEvent)) (h : Handler) (d : Dom) :
  isScrolling h = true ->
  run h d (moves ms) = (h, d).
Proof.
  intros Hlock. induction ms as [ | [env e] ms IH]; trivial.
  change (run h d (moves ((env, e) :: ms)))
    with (run (handleTouchMove h e) d (moves ms)).
  replace (handleTouchMove h e) with h; trivial.
  unfold handleTouchMove. rewrite Hlock.
  destruct (is_null (touchStartY h)), (first_touch (touches e)); reflexivity.
Qed.

Lemma axis_lock_is_kept_witness :
  run (set_isScrolling tracking_example true) empty_page
      (moves [move_example; start_example]) =
  (set_isScrolling tracking_example true, empty_page).
Proof.
  apply (axis_lock_is_kept [move_example; start_example]
           (set_isScrolling tracking_example true) empty_page).
  reflexivity.
Defined.

(** ** Section snapping *)









(** ** Overlays *)

(** A handler without overlay elements never changes the opacity of
    anything. *)
Lemma step_shown (h : Handler) (env : Env) (d : Dom) (ev : Event) :
  gradientOverlay h = None -> gradientOverlayBottom h = None ->
  shown (snd (step h env d ev)) = shown d.
Proof.
  destruct h as [cfg x0 y0 t0 l b o1 o2]. cbn. intros -> ->.
  destruct ev; unfold_handlers;
    destruct (onSwipe cfg); cbn; break_match; reflexivity.
Qed.

Lemma run_shown (tr : list (Env * Event)) (h : Handler) (d : Dom) :
  gradientOverlay h = None -> gradientOverlayBottom h = None ->
  shown (snd (run h d tr)) = shown d.
Proof.
  revert h d. induction tr as [ | [env ev] tr IH]; intros h d Ht Hb; trivial.
  cbn [run]. pose proof (step_shown h env d ev Ht Hb) as Hs.
  destruct (step_keeps h env d ev) as (_ & _ & Ht' & Hb').
  destruct (step h env d ev) as [[c h1] d1]. cbn [fst snd] in *.
  rewrite IH by congruence. now destruct c.
Qed.

(** X9.  A handler constructed with showVisualFeedback or enableGradient
    switched off creates no overlay element, and no sequence of events
    (touches or timers) makes it add one or show one. *)
Theorem feedback_off_is_silent (cfg : Config) (d : Dom) (tr : list (Env * Event)) :
  showVisualFeedback cfg && enableGradient cfg = false ->
  let fresh := new cfg d in
  body (snd fresh) = body d /\
  body (snd (run (fst fresh) (snd fresh) tr)) = body d /\
  shown (snd (run (fst fresh) (snd fresh) tr)) = shown d.
Proof.
  intros Hoff. unfold new. rewrite Hoff. cbn [fst snd].
  set (h0 := mkHandler cfg None None None 0 false None None).
  destruct (run_keeps tr h0 (bindEvents d)) as (Hb & _).
  repeat split; trivial.
  now rewrite run_shown.
Qed.

Lemma feedback_off_is_silent_witness :
  let cfg := mkConfig 26 "smooth" false false 300 true false true (5 # 2) true None in
  let fresh := new cfg empty_page in
  let tr := [(fst start_example, TouchStart (snd start_example));
             (env_example 100, TouchEnd end_example)] in
  body (snd fresh) = body empty_page /\
  body (snd (run (fst fresh) (snd fresh) tr)) = body empty_page /\
  shown (snd (run (fst fresh) (snd fresh) tr)) = shown empty_page.
Proof.
  apply (feedback_off_is_silent
           (mkConfig 26 "smooth" false false 300 true false true (5 # 2) true None)
           empty_page
           [(fst start_example, TouchStart (snd start_example));
            (env_example 100, TouchEnd end_example)]).
  reflexivity.
Defined.

(** X10.  After destroy, no sequence of events, pending hide timers
    included, changes the opacity of any element. *)
Theorem no_feedback_after_destroy (h : Handler) (d : Dom) (tr : list (Env * Event)) :
  let destroyed := destroy h d in
  shown (snd (run (fst destroyed) (snd destroyed) tr)) = shown (snd destroyed).
Proof.
  intros destroyed.
  destruct (destroy_fields h d) as (Ht & Hb & _).
  now apply run_shown.
Qed.

Lemma filter_absent (k : nat) (l : list nat) :
  ~ In k l -> filter (fun m => negb (Nat.eqb m k)) l = l.
Proof.
  induction l as [ | n l IH]; intros Hk; trivial. cbn.
  destruct (Nat.eqb_spec n k) as [-> | Hne]; cbn.
  - exfalso. apply Hk. now left.
  - rewrite IH; trivial. intros Hin. apply Hk. now right.
Qed.

(** X11.  An up swipe shows the first overlay and schedules its hiding
    after feedbackDuration; a down swipe does the same with the second
    overlay; left and right swipes show nothing.  When the hide timer comes
    due, the opacities are what they were before the swipe. *)
Theorem show_then_hide (h : Handler) (d : Dom) (n m : nat) :
  enableGradient (config h) = true ->
  gradientOverlay h = Some n ->
  gradientOverlayBottom h = Some m ->
  ~ In n (shown d) -> ~ In m (shown d) ->
  (In n (shown (showGradient h d up)) /\
   timers (showGradient h d up) =
     timers d ++ [(HideTop, feedbackDuration (config h))] /\
   shown (fire h (showGradient h d up) HideTop) = shown d) /\
  (In m (shown (showGradient h d down)) /\
   timers (showGradient h d down) =
     timers d ++ [(HideBottom, feedbackDuration (config h))] /\
   shown (fire h (showGradient h d down) HideBottom) = shown d) /\
  showGradient h d left = d /\
  showGradient h d right = d.
Proof.
  intros Hg Ht Hb Hn Hm. unfold showGradient, fire.
  rewrite Hg, Ht, Hb. cbn.
  rewrite !filter_absent by trivial.
  rewrite !Nat.eqb_refl. cbn.
  repeat split; auto.
Qed.

Lemma show_then_hide_witness :
  shown (fire tracking_example (showGradient tracking_example empty_page up)
              HideTop) = shown empty_page.
Proof.
  refine (proj2 (proj2 (proj1
            (show_then_hide tracking_example empty_page 0 1 _ _ _ _ _))));
    try reflexivity; intros [].
Defined.

(** ** Construction and destruction *)

Lemma filter_app_last (k : nat) (l : list nat) :
  filter (fun m => negb (Nat.eqb m k)) (l ++ [k]) =
  filter (fun m => negb (Nat.eqb m k)) l.
Proof.
  rewrite filter_app. cbn. rewrite Nat.eqb_refl. cbn. apply app_nil_r.
Qed.

(** X12.  Constructing a handler and destroying it leaves the children of
    the body as they were, whether or not overlays were created. *)
Theorem new_then_destroy (cfg : Config) (d : Dom) :
  well_formed d ->
  let fresh := new cfg d in
  body (snd (destroy (fst fresh) (snd fresh))) = body d.
Proof.
  intros Hwf. unfold new.
  destruct (showVisualFeedback cfg && enableGradient cfg); [ | reflexivity].
  assert (H1 : ~ In (nextNode d) (body d)).
  { intros Hin. apply Hwf in Hin. lia. }
  assert (H2 : ~ In (S (nextNode d)) (body d)).
  { intros Hin. apply Hwf in Hin. lia. }
  cbn.
  rewrite (filter_app _ (body d ++ [nextNode d])), filter_app_last,
    (filter_absent _ _ H1).
  cbn [filter].
  replace (Nat.eqb (S (nextNode d)) (nextNode d)) with false
    by (symmetry; apply Nat.eqb_neq; lia).
  cbn [negb]. now rewrite filter_app_last, (filter_absent _ _ H2).
Qed.

Lemma new_then_destroy_witness :
  body (snd (destroy (fst (new DEFAULT_CONFIG empty_page))
                     (snd (new DEFAULT_CONFIG empty_page)))) =
  body empty_page.
Proof.
  apply (new_then_destroy DEFAULT_CONFIG empty_page).
  intros n [].
Defined.

(** The overlays of a new handler are the two elements created for it. *)
Lemma new_overlays (cfg : Config) (d : Dom) (n : nat) :
  gradientOverlay (fst (new cfg d)) = Some n \/
  gradientOverlayBottom (fst (new cfg d)) = Some n ->
  (nextNode d <= n < nextNode (snd (new cfg d)))%nat /\
  In n (body (snd (new cfg d))).
Proof.
  unfold new. destruct (showVisualFeedback cfg && enableGradient cfg); cbn.
  - intros [H | H]; inversion H; subst n; (split; [lia | ]);
      rewrite <- app_assoc; apply in_or_app; right; cbn; auto.
  - intros [H | H]; discriminate.
Qed.

(** X13.  Two handlers on one page own different overlay elements, and
    destroying the first removes its own overlays and none of the second's. *)
Theorem destroy_spares_other_handler (cfg1 cfg2 : Config) (d : Dom) (n : nat) :
  let first := new cfg1 d in
  let second := new cfg2 (snd first) in
  let after := destroy (fst first) (snd second) in
  (gradientOverlay (fst second) = Some n \/
   gradientOverlayBottom (fst second) = Some n ->
   In n (body (snd after))) /\
  (gradientOverlay (fst first) = Some n \/
   gradientOverlayBottom (fst first) = Some n ->
   ~ In n (body (snd after)) /\
   gradientOverlay (fst second) <> Some n /\
   gradientOverlayBottom (fst second) <> Some n).
Proof.
  intros first second after.
  assert (Hdisjoint : forall a b,
             (gradientOverlay (fst first) = Some a \/
              gradientOverlayBottom (fst first) = Some a) ->
             (gradientOverlay (fst second) = Some b \/
              gradientOverlayBottom (fst second) = Some b) -> a <> b).
  { intros a b Ha Hb.
    apply new_overlays in Ha. apply (new_overlays cfg2 (snd first)) in Hb.
    destruct Ha as [Ha _], Hb as [Hb _]. unfold first in *. lia. }
  split.
  - intros Hn.
    pose proof (proj2 (new_overlays cfg2 (snd first) n Hn)) as Hin.
    fold second in Hin. unfold after, destroy.
    destruct (gradientOverlay (fst first)) as [t | ] eqn:Ht,
             (gradientOverlayBottom (fst first)) as [b | ] eqn:Hb;
      cbn; rewrite ?Ht, ?Hb; cbn; rewrite ?filter_In; repeat split; trivial;
      apply negb_true_iff, Nat.eqb_neq; intros Heq;
      first [ apply (Hdisjoint n n); [left; congruence | exact Hn | reflexivity]
            | apply (Hdisjoint n n); [right; congruence | exact Hn | reflexivity] ].
  - intros Hn. split; [now apply destroy_body | ].
    split; intros Heq; eapply Hdisjoint; eauto.
Qed.

(** * Properties of the page-level entry points *)


Lemma getAttribute_true_iff (attrs : Attributes) (name : string) :
  attribute_is_true attrs name = true <->
  getAttribute attrs name = Some "true"%string.
Proof.
  unfold attribute_is_true.
  destruct (getAttribute attrs name) as [v | ]; [ | split; discriminate].
  rewrite String.eqb_eq. split; congruence.
Qed.

(** X15.  On a body that carries data-swipe-enabled, the auto-initialiser
    constructs a handler whose configuration is the default one except for
    snapToSections and enableGradient.  snapToSections is on exactly when
    data-swipe-snap has the value "true"; enableGradient is off exactly
    when data-swipe-gradient is present with any other value than "true",
    and then no overlay is created. *)
Theorem autoInit_config (attrs : Attributes) (d : Dom) :
  hasAttribute attrs "data-swipe-enabled" = true ->
  exists h,
    fst (autoInit attrs d) = Some h /\
    config h = default_but (snapToSections (config h))
                           (enableGradient (config h)) /\
    (snapToSections (config h) = true <->
     getAttribute attrs "data-swipe-snap" = Some "true"%string) /\
    (enableGradient (config h) = false <->
     exists v, getAttribute attrs "data-swipe-gradient" = Some v /\
               v <> "true"%string) /\
    (enableGradient (config h) = false ->
     gradientOverlay h = None /\ gradientOverlayBottom h = None /\
     body (snd (autoInit attrs d)) = body d).
Proof.
  intros Hen. unfold autoInit. rewrite Hen.
  set (o := read_overrides attrs).
  destruct (new (merge_defaults o) d) as [h d1] eqn:Hnew.
  assert (Hcfg : config h = merge_defaults o).
  { unfold new in Hnew.
    destruct (showVisualFeedback _ && enableGradient _);
      inversion Hnew; reflexivity. }
  exists h. cbn [fst snd].
  split; [reflexivity | ]. split; [rewrite Hcfg; reflexivity | ].
  split; [ | split].
  - rewrite Hcfg, <- getAttribute_true_iff.
    unfold o, read_overrides, merge_defaults, hasAttribute, attribute_is_true.
    cbn. destruct (getAttribute attrs "data-swipe-snap"); cbn; tauto.
  - rewrite Hcfg.
    unfold o, read_overrides, merge_defaults, hasAttribute, attribute_is_true.
    cbn. destruct (getAttribute attrs "data-swipe-gradient") as [v | ]; cbn.
    + destruct (String.eqb_spec v "true").
      * split; [discriminate | ]. intros (w & Hw & Hne). congruence.
      * split; trivial. intros _. exists v. auto.
    + split; [discriminate | ]. intros (w & Hw & _). discriminate.
  - intros Hoff. rewrite Hcfg in Hoff. unfold new in Hnew.
    rewrite Hoff, andb_false_r in Hnew. inversion Hnew. repeat split.
Qed.

Lemma autoInit_config_witness :
  exists h,
    fst (autoInit [("class", "page"); ("data-swipe-enabled", "");
                   ("data-swipe-gradient", "false")]%string empty_page) = Some h /\
    config h = default_but (snapToSections (config h))
                           (enableGradient (config h)) /\
    (snapToSections (config h) = true <->
     getAttribute [("class", "page"); ("data-swipe-enabled", "");
                   ("data-swipe-gradient", "false")]%string "data-swipe-snap" =
     Some "true"%string) /\
    (enableGradient (config h) = false <->
     exists v, getAttribute [("class", "page"); ("data-swipe-enabled", "");
                             ("data-swipe-gradient", "false")]%string
                            "data-swipe-gradient" = Some v /\
               v <> "true"%string) /\
    (enableGradient (config h) = false ->
     gradientOverlay h = None /\ gradientOverlayBottom h = None /\
     body (snd (autoInit [("class", "page"); ("data-swipe-enabled", "");
                          ("data-swipe-gradient", "false")]%string empty_page)) =
     body empty_page).
Proof.
  apply (autoInit_config [("class", "page"); ("data-swipe-enabled", "");
                          ("data-swipe-gradient", "false")]%string empty_page).
  reflexivity.
Defined.

(** * Properties of the swipe rail *)

Lemma rail_initial_ok (doc : option bool) : rail_timer_ok (Rail.initial doc).
Proof.
  unfold rail_timer_ok, Rail.initial. cbn.
  repeat split; auto; try discriminate; try (intros id []); congruence.
Qed.

(** [showRail({ autoHide: true })] on a known rail: the rail is expanded,
    whatever timeout was pending is cancelled, and a new one is the only
    one pending. *)
Lemma showRail_armed (s : Rail.State) :
  rail_timer_ok s -> Rail.rail s = true ->
  Rail.showRail s true =
    Rail.mkState (Some false) (Rail.created s) true
                 (Some (Rail.nextTimer s)) [Rail.nextTimer s]
                 (S (Rail.nextTimer s)) (Rail.frames s).
Proof.
  intros (Hpend & Hpos & _ & _ & _ & Hdoc) Hrail.
  specialize (Hdoc Hrail).
  destruct s as [doc n r t p next fr]. cbn in *. subst r.
  unfold Rail.showRail. cbn.
  destruct doc as [c | ]; [ | congruence]. cbn.
  destruct Hpend as [-> | (id & -> & ->)].
  - destruct t as [[ | id] | ]; cbn; trivial.
  - specialize (Hpos id eq_refl). destruct id as [ | id]; [lia | ].
    cbn. now rewrite Nat.eqb_refl.
Qed.

Lemma ensureRail_ok (s : Rail.State) :
  rail_timer_ok s ->
  rail_timer_ok (Rail.ensureRail s) /\ Rail.rail (Rail.ensureRail s) = true /\
  (rail_expanded (Rail.ensureRail s) -> rail_expanded s).
Proof.
  intros (Hpend & Hpos & Hlt & Hnext & Hrail & Hdoc).
  unfold Rail.ensureRail, rail_expanded.
  destruct (Rail.docRail s) as [c | ] eqn:Hd; cbn.
  - split; [ | split; [reflexivity | congruence] ].
    unfold rail_timer_ok; cbn. repeat split; trivial. discriminate.
  - split; [ | split; [reflexivity | discriminate] ].
    unfold rail_timer_ok; cbn. repeat split; trivial. discriminate.
Qed.

Lemma hideRail_ok (s : Rail.State) :
  rail_timer_ok s ->
  rail_timer_ok (Rail.hideRail s) /\
  (Rail.rail s = true -> ~ rail_expanded (Rail.hideRail s)) /\
  Rail.pending (Rail.hideRail s) = Rail.pending s.
Proof.
  destruct s as [doc n r t p next fr].
  intros (Hpend & Hpos & Hlt & Hnext & Hrail & Hdoc). cbn in *.
  unfold Rail.hideRail, rail_expanded, Rail.set_collapsed. cbn.
  destruct r; cbn.
  - specialize (Hdoc eq_refl).
    destruct doc as [c | ]; [ | congruence]. cbn.
    split; [ | split; [intros _; discriminate | reflexivity] ].
    unfold rail_timer_ok; cbn. repeat split; trivial; discriminate.
  - split; [ | split; [discriminate | reflexivity] ].
    unfold rail_timer_ok; cbn. repeat split; trivial.
Qed.

Lemma armed_ok (n next fr : nat) :
  (1 <= next)%nat ->
  rail_timer_ok (Rail.mkState (Some false) n true (Some next) [next] (S next) fr).
Proof.
  intros Hnext. unfold rail_timer_ok. cbn.
  repeat split; trivial; try discriminate.
  - right. exists next. auto.
  - intros id Hid. inversion Hid. lia.
  - intros id [<- | []]. lia.
  - lia.
Qed.

(** The timer invariant, together with: an expanded rail has a timeout
    pending. *)
Lemma handle_ok (s : Rail.State) (ev : Rail.Event) :
  rail_timer_ok s ->
  rail_timer_ok (Rail.handle s ev) /\
  ((rail_expanded s -> Rail.pending s <> []) ->
   rail_expanded (Rail.handle s ev) -> Rail.pending (Rail.handle s ev) <> []).
Proof.
  intros Hok.
  assert (Hnext : (1 <= Rail.nextTimer s)%nat) by apply Hok.
  destruct ev as [ | | | onRail w x | id]; cbn [Rail.handle].
  - destruct (ensureRail_ok s Hok) as (Hok1 & Hr1 & _).
    destruct (hideRail_ok _ Hok1) as (Hok2 & Hcol & _).
    split; trivial. intros _ Hexp. now apply Hcol in Hexp.
  - destruct (ensureRail_ok s Hok) as (Hok1 & Hr1 & Hexp1).
    split.
    + destruct Hok1 as (H1 & H2 & H3 & H4 & H5 & H6).
      unfold rail_timer_ok. cbn. repeat split; trivial.
    + intros Hvis Hexp. cbn in *.
      replace (Rail.pending (Rail.ensureRail s)) with (Rail.pending s)
        by (unfold Rail.ensureRail; now destruct (Rail.docRail s)).
      apply Hvis, Hexp1. exact Hexp.
  - destruct (Rail.frames s) as [ | n] eqn:Hfr; [tauto | ].
    destruct (Rail.rail s) eqn:Hr.
    + rewrite showRail_armed; trivial.
      split; [now apply armed_ok | cbn; discriminate].
    + unfold Rail.showRail. cbn. rewrite Hr. cbn.
      split; [ | tauto].
      destruct Hok as (H1 & H2 & H3 & H4 & H5 & H6).
      unfold rail_timer_ok. cbn. repeat split; trivial.
  - destruct (Rail.rail s) eqn:Hr; cbn [negb]; [ | tauto].
    destruct onRail; [ | destruct (geb _ _); [ | tauto] ];
      rewrite showRail_armed; trivial;
      (split; [now apply armed_ok | cbn; discriminate]).
  - destruct s as [doc n r t p next fr]. cbn in *.
    destruct (existsb (Nat.eqb id) p) eqn:Hin; [ | tauto].
    destruct Hok as (Hpend & Hpos & Hlt & _ & Hrail & Hdoc). cbn in *.
    destruct Hpend as [-> | (id' & -> & ->)]; [discriminate | ].
    cbn in Hin. rewrite orb_false_r in Hin. apply Nat.eqb_eq in Hin. subst id'.
    assert (Hr : r = true) by (apply Hrail; discriminate). subst r.
    specialize (Hdoc eq_refl). destruct doc as [c | ]; [ | congruence].
    unfold Rail.hideRail, Rail.set_collapsed, rail_expanded. cbn.
    rewrite Nat.eqb_refl. cbn.
    split; [ | intros _ Hexp; discriminate Hexp].
    unfold rail_timer_ok; cbn.
    repeat split; auto; try discriminate; intros i [].
Qed.

Lemma handle_all_ok (evs : list Rail.Event) (s : Rail.State) :
  rail_timer_ok s ->
  rail_timer_ok (Rail.handle_all s evs) /\
  ((rail_expanded s -> Rail.pending s <> []) ->
   rail_expanded (Rail.handle_all s evs) ->
   Rail.pending (Rail.handle_all s evs) <> []).
Proof.
  revert s. induction evs as [ | ev evs IH]; intros s Hok; [cbn; tauto | ].
  destruct (handle_ok s ev Hok) as [Hok1 Hvis1].
  destruct (IH _ Hok1) as [Hok2 Hvis2].
  cbn. split; trivial. intros Hvis. apply Hvis2, Hvis1, Hvis.
Qed.

(** X16.  Whatever the document held and whatever events arrive, at most
    one hide timeout of the rail is pending, and [hideTimer] holds its id:
    every trigger cancels the previous countdown before starting its own. *)
Theorem rail_single_timer (doc : option bool) (evs : list Rail.Event) :
  let s := Rail.handle_all (Rail.initial doc) evs in
  (List.length (Rail.pending s) <= 1)%nat /\
  (forall id, In id (Rail.pending s) -> Rail.hideTimer s = Some id).
Proof.
  intros s.
  destruct (handle_all_ok evs _ (rail_initial_ok doc)) as [Hok _].
  fold s in Hok. destruct Hok as ([Hnil | (id & Hone & Ht)] & _).
  - rewrite Hnil. cbn. split; [lia | intros id []].
  - rewrite Hone. cbn. split; [lia | ]. intros i [<- | []]. exact Ht.
Qed.

(** X17.  Once the DOMContentLoaded listener has run, the rail is never
    expanded without a hide timeout pending: it cannot stay open. *)
Theorem rail_expanded_has_timer (doc : option bool) (evs : list Rail.Event) :
  let s := Rail.handle_all (Rail.initial doc) (Rail.DOMContentLoaded :: evs) in
  rail_expanded s -> exists id, Rail.pending s = [id].
Proof.
  intros s Hexp. unfold s in *. cbn [Rail.handle_all fold_left] in *.
  fold (Rail.handle_all (Rail.handle (Rail.initial doc) Rail.DOMContentLoaded) evs)
    in *.
  set (s0 := Rail.handle (Rail.initial doc) Rail.DOMContentLoaded) in *.
  assert (Hok0 : rail_timer_ok s0)
    by (apply handle_ok, rail_initial_ok).
  assert (Hcol0 : ~ rail_expanded s0).
  { unfold s0, rail_expanded. destruct doc; cbn; discriminate. }
  destruct (handle_all_ok evs s0 Hok0) as [Hok Hvis].
  assert (Hpend : Rail.pending (Rail.handle_all s0 evs) <> []).
  { apply Hvis; trivial. intros H. now apply Hcol0 in H. }
  destruct Hok as ([Hnil | (id & Hone & _)] & _); [congruence | eauto].
Qed.

Lemma rail_expanded_has_timer_witness :
  exists id,
    Rail.pending (Rail.handle_all (Rail.initial None)
                    [Rail.DOMContentLoaded; Rail.Load; Rail.AnimationFrame]) =
    [id].
Proof.
  apply (rail_expanded_has_timer None [Rail.Load; Rail.AnimationFrame]).
  reflexivity.
Defined.

(** The script creates an element only when the document has none. *)
Lemma handle_created (s : Rail.State) (ev : Rail.Event) :
  (Rail.docRail s = None -> Rail.docRail (Rail.handle s ev) = None ->
   Rail.created (Rail.handle s ev) = Rail.created s) /\
  (Rail.docRail s = None -> Rail.docRail (Rail.handle s ev) <> None ->
   Rail.created (Rail.handle s ev) = S (Rail.created s)) /\
  (Rail.docRail s <> None ->
   Rail.docRail (Rail.handle s ev) <> None /\
   Rail.created (Rail.handle s ev) = Rail.created s).
Proof.
  destruct s as [doc n r t p next fr].
  destruct ev as [ | | | onRail w x | id]; cbn [Rail.handle];
    unfold Rail.hideRail, Rail.showRail, Rail.ensureRail, Rail.set_collapsed,
      Rail.set_doc, Rail.set_timer, Rail.set_frames;
    cbn; break_match; cbn; repeat split; intros; cbn in *; congruence.
Qed.

(** X18.  Over any sequence of events the script creates at most one rail
    element, and none at all when the document already has one. *)
Theorem rail_created_once (doc : option bool) (evs : list Rail.Event) :
  let s := Rail.handle_all (Rail.initial doc) evs in
  (Rail.created s <= 1)%nat /\
  (doc <> None -> Rail.created s = 0%nat) /\
  (Rail.created s = 1%nat -> Rail.docRail s <> None).
Proof.
  assert (Hgen : forall evs s,
             (Rail.docRail s = None -> Rail.created s = 0%nat) ->
             (Rail.created s <= 1)%nat ->
             let s' := Rail.handle_all s evs in
             (Rail.docRail s' = None -> Rail.created s' = 0%nat) /\
             (Rail.created s' <= 1)%nat /\
             (Rail.docRail s <> None -> Rail.created s' = Rail.created s)).
  { clear. induction evs as [ | ev evs IH]; intros s Hnone Hle; [cbn; auto | ].
    destruct (handle_created s ev) as (Hsame & Hnew & Hkeep).
    assert (H1 : Rail.docRail (Rail.handle s ev) = None ->
                 Rail.created (Rail.handle s ev) = 0%nat).
    { intros Hd. destruct (Rail.docRail s) eqn:Hs.
      - destruct Hkeep as [Hk _]; [discriminate | congruence].
      - rewrite Hsame; auto. }
    assert (H2 : (Rail.created (Rail.handle s ev) <= 1)%nat).
    { destruct (Rail.docRail s) eqn:Hs.
      - destruct Hkeep as [_ Hk]; [discriminate | lia].
      - destruct (Rail.docRail (Rail.handle s ev)) eqn:Hd.
        + rewrite Hnew; [rewrite Hnone; auto | auto | congruence].
        + rewrite Hsame; auto. }
    destruct (IH _ H1 H2) as (Ha & Hb & Hc).
    change (Rail.handle_all s (ev :: evs))
      with (Rail.handle_all (Rail.handle s ev) evs).
    cbv zeta in Ha, Hb, Hc |- *. repeat split; trivial.
    intros Hs. destruct (Hkeep Hs) as [Hd Hcr]. rewrite Hc; trivial. }
  intros s.
  destruct (Hgen evs (Rail.initial doc)) as (Ha & Hb & Hc); cbn; auto.
  fold s in Ha, Hb, Hc. repeat split; trivial.
  intros H1 Hd. apply Ha in Hd. lia.
Qed.

(** Once the rail is known it stays known. *)
Lemma handle_all_keeps_rail (evs : list Rail.Event) (s : Rail.State) :
  Rail.rail s = true -> Rail.rail (Rail.handle_all s evs) = true.
Proof.
  revert s. induction evs as [ | ev evs IH]; intros s Hs; [exact Hs | ].
  cbn. apply IH.
  destruct s as [d0 n r t p next fr]. cbn in Hs. subst r.
  destruct ev as [ | | | o w x | id]; cbn [Rail.handle];
    unfold Rail.hideRail, Rail.showRail, Rail.ensureRail, Rail.set_collapsed,
      Rail.set_doc, Rail.set_timer, Rail.set_frames;
    cbn; break_match; reflexivity.
Qed.

(** X19.  On a page whose rail is set up, a pointerdown on the rail, or
    within 72 px of the right edge of the window, expands the rail and
    restarts the countdown: the timeout that was pending is cancelled and a
    new one is the only one pending.  A pointerdown farther from the edge
    and off the rail changes nothing. *)
Theorem rail_trigger_restarts (doc : option bool) (evs : list Rail.Event)
        (onRail : bool) (w x : Q) :
  let s := Rail.handle_all (Rail.initial doc) (Rail.DOMContentLoaded :: evs) in
  let s' := Rail.handle s (Rail.PointerDown onRail w x) in
  (onRail = true \/ w - x <= 72 ->
   rail_expanded s' /\
   Rail.pending s' = [Rail.nextTimer s] /\
   Rail.hideTimer s' = Some (Rail.nextTimer s) /\
   ~ In (Rail.nextTimer s) (Rail.pending s)) /\
  (onRail = false -> 72 < w - x -> s' = s).
Proof.
  intros s s'.
  assert (Hok : rail_timer_ok s).
  { apply handle_all_ok, rail_initial_ok. }
  assert (Hrail : Rail.rail s = true).
  { apply (handle_all_keeps_rail evs
             (Rail.handle (Rail.initial doc) Rail.DOMContentLoaded)).
    now destruct doc. }
  clearbody s. split.
  - intros Htrig.
    assert (Hshow : s' = Rail.showRail s true).
    { unfold s'. cbn [Rail.handle]. rewrite Hrail. cbn [negb].
      destruct onRail; trivial.
      destruct Htrig as [H | H]; [discriminate | ].
      replace (geb Rail.EDGE_TRIGGER_PX (w - x)) with true; trivial.
      symmetry. now apply geb_true_iff. }
    rewrite Hshow, showRail_armed by trivial. cbn.
    repeat split.
    intros Hin. destruct Hok as (_ & _ & Hlt & _). apply Hlt in Hin. lia.
  - intros -> Hfar. unfold s'. cbn [Rail.handle]. rewrite Hrail. cbn [negb].
    replace (geb Rail.EDGE_TRIGGER_PX (w - x)) with false; trivial.
    symmetry. now apply geb_false_iff.
Qed.

(** The double-tap guard records the time of every touchend. *)
Lemma touchEndGuard_last (last now : Q) (target : option bool) :
  snd (Rail.touchEndGuard last now target) = now.
Proof. unfold Rail.touchEndGuard. now destruct target as [[ | ] | ]. Qed.

(** X20.  In any sequence of touchend events, the default action of an
    event after the first is prevented exactly when its target is not
    inside an interactive element and it comes at most 300 ms after the
    touchend before it, whatever that one's target was. *)
Theorem double_tap_guard (evs : list (Q * option bool)) :
  forall (last : Q) (i : nat) (t1 t2 : Q) (g1 g2 : option bool),
    nth_error evs i = Some (t1, g1) ->
    nth_error evs (S i) = Some (t2, g2) ->
    nth_error (Rail.guard_all last evs) (S i) =
      Some (match g2 with
            | Some true => false
            | _ => geb 300 (t2 - t1)
            end).
Proof.
  induction evs as [ | [t g] evs IH]; intros last i t1 t2 g1 g2 H1 H2;
    [destruct i; discriminate | ].
  cbn [Rail.guard_all].
  pose proof (touchEndGuard_last last t g) as Hlast.
  destruct (Rail.touchEndGuard last t g) as [p l]. cbn in Hlast. subst l.
  destruct i as [ | i]; cbn in H1, H2 |- *.
  - inversion H1; subst t1 g1.
    destruct evs as [ | [t' g'] evs]; [discriminate | ].
    inversion H2; subst t' g'. cbn.
    unfold Rail.touchEndGuard. now destruct g2 as [[ | ] | ].
  - now apply (IH t i t1 t2 g1 g2).
Qed.

Lemma double_tap_guard_witness :
  nth_error (Rail.guard_all 0 [(1000, Some true); (1200, Some false);
                               (1500, None); (1801, Some false)]) 2 =
  Some (geb 300 (1500 - 1200)).
Proof.
  apply (double_tap_guard [(1000, Some true); (1200, Some false);
                           (1500, None); (1801, Some false)]
                          0 1 1200 1500 (Some false) None);
    reflexivity.
Defined.
